(** * Google Workspace audit-log export: a model of [gws-get-logs-2.py]

    The script pages through the Reports API, appends the records of each
    page to a file per application and date range, can resume from the most
    recent timestamp already on disk, and can split a range into one
    request window per calendar day.

    The Python code is embedded function by function.  Values keep their
    dynamic types ([json], [pyval]); exceptions are explicit ([result],
    [outcome]); the file system and the remote service are threaded through
    a [world].  Library calls ([json.loads], [dateutil.parser.parse],
    [strptime], the API client, ...) are the fields of the interface
    [PyLibs]: every general statement holds for all implementations of it,
    and runs on concrete inputs use the test double [Demo.libs].

    Not modelled: the [logging] calls, directories (a file is a path with
    its lines; [Path(folder).mkdir] has no counterpart) and failures of the
    operating system on [open] and [write]. *)

From Stdlib Require Import ZArith Lia Ascii.
From stdpp Require Import gmap strings list pretty.

Set Warnings "-register-all".

Open Scope string_scope.
Open Scope list_scope.
Open Scope Z_scope.

(** ** Exceptions and fallible results *)

Inductive exn :=
| TypeError
| AttributeError
| KeyError
| ValueError
| OverflowError
| OtherError (name : string).

Inductive result (A : Type) :=
| Ok (a : A)
| Err (e : exn).
Arguments Ok {A} a.
Arguments Err {A} e.

Definition rbind {A B} (r : result A) (k : A -> result B) : result B :=
  match r with
  | Ok a => k a
  | Err e => Err e
  end.

Notation "x <-? c ; k" := (rbind c (fun x => k))
  (at level 100, c at next level, right associativity).

(** ** JSON values and Python values

    [json] is what [json.loads] yields (non-integral numbers are left out:
    the script never inspects a number).  A record of the API is a [json]
    object.  The only other kind of value the script handles is a
    [datetime]. *)

Inductive json :=
| JNull
| JBool (b : bool)
| JInt (z : Z)
| JStr (s : string)
| JArr (l : list json)
| JObj (l : list (string * json)).

(** A [datetime.datetime]: proleptic Gregorian ordinal of the date
    ([date.toordinal()], 1 .. 3652059), microseconds since midnight, and the
    UTC offset in microseconds ([None] for a naive value). *)
Record datetime := mk_datetime {
  toordinal : Z;
  day_micros : Z;
  utcoffset : option Z
}.

Inductive pyval :=
| PJ (j : json)
| PDt (d : datetime).

Definition PNone : pyval := PJ JNull.
Definition PStr (s : string) : pyval := PJ (JStr s).

(** Truth value of a Python object, as used by [if], [not], [or]. *)
Definition truthy_json (j : json) : bool :=
  match j with
  | JNull => false
  | JBool b => b
  | JInt z => negb (Z.eqb z 0)
  | JStr s => negb (String.eqb s "")
  | JArr l => match l with [] => false | _ => true end
  | JObj l => match l with [] => false | _ => true end
  end.

Definition truthy (v : pyval) : bool :=
  match v with
  | PJ j => truthy_json j
  | PDt _ => true
  end.

(** [obj[key]] with a string key. *)
Fixpoint dict_get (l : list (string * json)) (key : string) : option json :=
  match l with
  | [] => None
  | (k, v) :: rest => if String.eqb k key then Some v else dict_get rest key
  end.

Definition subscript (obj : json) (key : string) : result json :=
  match obj with
  | JObj l => match dict_get l key with
              | Some v => Ok v
              | None => Err KeyError
              end
  | _ => Err TypeError
  end.

(** ** Dates and times *)

Definition MAXORDINAL : Z := 3652059.
Definition DAY_MICROS : Z := 86400000000.

(** [datetime.time.min] and [datetime.time.max], in microseconds. *)
Definition time_min : Z := 0.
Definition time_max : Z := DAY_MICROS - 1.

(** [datetime.datetime.combine(day, t)] for a naive time [t]: the date of
    [day] is kept, its time and its tzinfo are replaced. *)
Definition combine (day : datetime) (t : Z) : datetime :=
  {| toordinal := toordinal day; day_micros := t; utcoffset := None |}.

Definition get_start_of_the_day (day : datetime) : datetime :=
  combine day time_min.

Definition get_end_of_the_day (day : datetime) : datetime :=
  combine day time_max.

(** [d + datetime.timedelta(days=n)]. *)
Definition add_days (d : datetime) (n : Z) : result datetime :=
  let o := toordinal d + n in
  if (1 <=? o) && (o <=? MAXORDINAL)
  then Ok {| toordinal := o; day_micros := day_micros d; utcoffset := utcoffset d |}
  else Err OverflowError.

(** Position on the time line, in microseconds, after removing [off]. *)
Definition instant (d : datetime) (off : Z) : Z :=
  toordinal d * DAY_MICROS + day_micros d - off.

(** [a < b] on datetimes: naive with naive, aware with aware; mixing the
    two raises [TypeError]. *)
Definition dt_lt (a b : datetime) : result bool :=
  match utcoffset a, utcoffset b with
  | None, None => Ok (instant a 0 <? instant b 0)
  | Some oa, Some ob => Ok (instant a oa <? instant b ob)
  | _, _ => Err TypeError
  end.

(** Whether a datetime carries an offset, and its position on the UTC time
    line (for a naive value: on its own time line). *)
Definition aware (d : datetime) : bool :=
  match utcoffset d with
  | Some _ => true
  | None => false
  end.

Definition utc (d : datetime) : Z := instant d (default 0 (utcoffset d)).

(** [a > b] is [b < a]. *)
Definition dt_gt (a b : datetime) : result bool := dt_lt b a.

(** ** The remote endpoint *)

(** Keyword arguments of [activities().list(...)]. *)
Record request := mk_request {
  userKey : string;
  applicationName : string;
  pageToken : option string;
  startTime : pyval;
  endTime : pyval
}.

(** The two keys read from a response; [None] is a missing key. *)
Record response := mk_response {
  items : option (list json);
  nextPageToken : option string
}.

(** ** Library interface

    [St] is the state of the remote service (a script of canned pages for a
    test double, the tenant's log store for the real API). *)
Class PyLibs (St : Type) := {
  json_loads : string -> result json;
  json_dumps : json -> string;
  dateparser_parse : string -> result datetime;
  (** [datetime.strptime(s, '%Y-%m-%dT%H:%M:%SZ')] *)
  strptime : json -> result datetime;
  (** [datetime.strftime(d, '%Y-%m-%dT%H:%M:%SZ')] *)
  strftime : datetime -> string;
  (** [str(d)] of a datetime, and [str] of a list or dict *)
  str_datetime : datetime -> string;
  repr_json : json -> string;
  (** [service.activities().list(userKey=..., ...).execute()] *)
  list_execute : St -> request -> result response * St;
  (** [requests.get(discovery).json()[...]['enum']] *)
  fetch_application_enum : result (list string);
  (** [os.path.exists(p) or os.makedirs(p)] in [Google.__init__] *)
  ensure_output_path : pyval -> result unit;
  (** [Google.google_session] *)
  google_session : pyval -> pyval -> result unit
}.

(** ** Files and observable effects *)

Inductive open_mode := ModeW | ModeA.

Inductive fs_event :=
| EvOpen (path : string) (mode : open_mode)
| EvWrite (path : string) (line : string).

(** Arguments of one call of [_get_activity_logs]. *)
Record fetch_call := mk_fetch_call {
  fc_application_name : string;
  fc_output_file : string;
  fc_overwrite : pyval;
  fc_start_time : pyval;
  fc_end_time : pyval
}.

(** [files] maps a path to the lines of the file, as [readlines()] returns
    them: each with its line break, which the last one may lack.
    [fs_events] and [fetch_calls] only record what happened, in order; no
    model function reads them. *)
Record world (St : Type) := mk_world {
  files : gmap string (list string);
  svc : St;
  fs_events : list fs_event;
  fetch_calls : list fetch_call
}.
Arguments mk_world {St}.
Arguments files {St}.
Arguments svc {St}.
Arguments fs_events {St}.
Arguments fetch_calls {St}.

(** ** Computations: state, exceptions, fuel *)

Inductive outcome (A : Type) :=
| Returned (a : A)
| Raised (e : exn)
| OutOfFuel.
Arguments Returned {A} a.
Arguments Raised {A} e.
Arguments OutOfFuel {A}.

Definition M (St A : Type) : Type := world St -> outcome A * world St.

Definition ret {St A} (a : A) : M St A := fun w => (Returned a, w).

Definition raise {St A} (e : exn) : M St A := fun w => (Raised e, w).

Definition bind {St A B} (c : M St A) (k : A -> M St B) : M St B :=
  fun w =>
    match c w with
    | (Returned a, w') => k a w'
    | (Raised e, w') => (Raised e, w')
    | (OutOfFuel, w') => (OutOfFuel, w')
    end.

Definition lift {St A} (r : result A) : M St A :=
  match r with
  | Ok a => ret a
  | Err e => raise e
  end.

Notation "x <- c ;; k" := (bind c (fun x => k))
  (at level 100, c at next level, right associativity).
Notation "c ;;; k" := (bind c (fun _ => k))
  (at level 100, right associativity).

Definition nl : string := String (Ascii.ascii_of_nat 10) EmptyString.

(** ** The program *)

Section Program.
Context {St : Type} {libs : PyLibs St}.

Definition out_of_fuel {A} : M St A := fun w => (OutOfFuel, w).

(** [str(v)], as an f-string renders [{v}]. *)
Definition py_str (v : pyval) : string :=
  match v with
  | PJ JNull => "None"
  | PJ (JBool true) => "True"
  | PJ (JBool false) => "False"
  | PJ (JInt z) => pretty z
  | PJ (JStr s) => s
  | PJ j => repr_json j
  | PDt d => str_datetime d
  end.

(** *** [Google._check_recent_date] *)

(** Body of the loop up to the comparison:
    [dateparser.parse(json.loads(line)['id']['time'])]. *)
Definition line_datetime_of (line : string) : result datetime :=
  json_obj <-? json_loads line;
  id <-? subscript json_obj "id";
  time <-? subscript id "time";
  match time with
  | JStr s => dateparser_parse s
  | _ => Err TypeError
  end.

(** [for line in f.readlines(): ...], with the running [return_date]. *)
Fixpoint scan_lines (lines : list string) (return_date : option datetime)
  : result (option datetime) :=
  match lines with
  | [] => Ok return_date
  | line :: rest =>
      line_datetime <-? line_datetime_of line;
      match return_date with
      | None => scan_lines rest (Some line_datetime)
      | Some rd =>
          older <-? dt_lt rd line_datetime;
          scan_lines rest (Some (if older then line_datetime else rd))
      end
  end.

Definition _check_recent_date (log_file_path : string) : M St (option datetime) :=
  fun w =>
    match files w !! log_file_path with
    | Some lines => lift (scan_lines lines None) w
    | None => ret None w
    end.

(** *** File operations used by the writer *)

(** [open(path, 'w')] truncates or creates; [open(path, 'a')] keeps the
    content or creates. *)
Definition open_file (path : string) (mode : open_mode) : M St unit :=
  fun w =>
    (Returned tt,
     {| files := match mode with
                 | ModeW => <[path := []]> (files w)
                 | ModeA => <[path := default [] (files w !! path)]> (files w)
                 end;
        svc := svc w;
        fs_events := fs_events w ++ [EvOpen path mode];
        fetch_calls := fetch_calls w |}).

(** [line.endswith("\n")] *)
Fixpoint ends_with_newline (line : string) : bool :=
  match line with
  | EmptyString => false
  | String c EmptyString => Ascii.eqb c (Ascii.ascii_of_nat 10)
  | String _ rest => ends_with_newline rest
  end.

(** What [readlines()] returns once [text], one line at most, has been
    added at the end of a file whose lines were [content]: a last line
    without a line break is continued by [text], otherwise [text] is a line
    of its own. *)
Fixpoint append_text (content : list string) (text : string) : list string :=
  match content with
  | [] => [text]
  | [line] =>
      if ends_with_newline line then [line; text] else [line +:+ text]
  | line :: rest => line :: append_text rest text
  end.

(** [output.write(text)] on a file opened by [open_file]: the characters
    are added at the end of the file.  The program writes one record per
    call, [json.dumps(entry)] and a line break, and [json.dumps] without
    [indent] emits no line break of its own. *)
Definition write (path : string) (text : string) : M St unit :=
  fun w =>
    (Returned tt,
     {| files := alter (fun content =>
                          if String.eqb text "" then content
                          else append_text content text) path (files w);
        svc := svc w;
        fs_events := fs_events w ++ [EvWrite path text];
        fetch_calls := fetch_calls w |}).

(** *** [Google._get_activity_logs] *)

Definition with_svc (s : St) (w : world St) : world St :=
  {| files := files w; svc := s;
     fs_events := fs_events w; fetch_calls := fetch_calls w |}.

Definition execute_list (req : request) : M St (result response) :=
  fun w =>
    let '(r, s') := list_execute (svc w) req in
    (Returned r, with_svc s' w).

(** The text written for one record: [f"{json.dumps(entry)}\n"]. *)
Definition line_of (entry : json) : string := json_dumps entry +:+ nl.

(** [for entry in ...: output.write(...); output_count += 1] *)
Fixpoint write_entries (output_file : string) (entries : list json)
    (output_count : Z) : M St Z :=
  match entries with
  | [] => ret output_count
  | entry :: rest =>
      write output_file (line_of entry) ;;;
      write_entries output_file rest (output_count + 1)
  end.

(** The [if activities:] block: the records of one page are stored. *)
Definition store_page (output_file : string) (overwrite : pyval)
    (activities : list json) (output_count total_records : Z) : M St (Z * Z) :=
  match activities with
  | [] => ret (output_count, total_records)
  | _ :: _ =>
      let total_records := total_records + Z.of_nat (length activities) in
      open_file output_file (if truthy overwrite then ModeW else ModeA) ;;;
      output_count <- write_entries output_file (rev activities) output_count ;;
      ret (output_count, total_records)
  end.

Definition list_request (application_name : string)
    (start_time end_time : pyval) (page_token : option string) : request :=
  {| userKey := "all";
     applicationName := application_name;
     pageToken := page_token;
     startTime := start_time;
     endTime := end_time |}.

(** The [while True] loop; [fuel] bounds the number of list calls. *)
Fixpoint _get_activity_logs_loop (fuel : nat)
    (application_name output_file : string)
    (overwrite start_time end_time : pyval)
    (page_token : option string) (output_count total_records : Z)
  : M St (json * json) :=
  match fuel with
  | O => out_of_fuel
  | S fuel' =>
      r <- execute_list
             (list_request application_name start_time end_time page_token) ;;
      match r with
      | Err TypeError => ret (JBool false, JBool false)
      | Err e => raise e
      | Ok results =>
          let page_token := default "" (nextPageToken results) in
          let activities := default [] (items results) in
          counts <- store_page output_file overwrite activities
                      output_count total_records ;;
          if String.eqb page_token ""
          then ret (JInt (fst counts), JInt (snd counts))
          else _get_activity_logs_loop fuel' application_name output_file
                 overwrite start_time end_time (Some page_token)
                 (fst counts) (snd counts)
      end
  end.

Definition with_fetch_call (c : fetch_call) (w : world St) : world St :=
  {| files := files w; svc := svc w; fs_events := fs_events w;
     fetch_calls := fetch_calls w ++ [c] |}.

Definition record_fetch_call (c : fetch_call) : M St unit :=
  fun w => (Returned tt, with_fetch_call c w).

Definition _get_activity_logs (fuel : nat)
    (application_name output_file : string)
    (overwrite start_time end_time : pyval) : M St (json * json) :=
  record_fetch_call {| fc_application_name := application_name;
                       fc_output_file := output_file;
                       fc_overwrite := overwrite;
                       fc_start_time := start_time;
                       fc_end_time := end_time |} ;;;
  _get_activity_logs_loop fuel application_name output_file
    overwrite start_time end_time None 0 0.

(** *** [Google.get_logs] *)

Record Google := mk_Google {
  SERVICE_ACCOUNT_FILE : pyval;
  delegated_creds : pyval;
  output_path : pyval;
  app_list : list string;
  update : pyval;
  overwrite : pyval
}.

(** [total += x] for an [int] total: [False] counts as 0, [True] as 1. *)
Definition iadd (total : Z) (x : json) : result Z :=
  match x with
  | JInt z => Ok (total + z)
  | JBool b => Ok (total + (if b then 1 else 0))
  | _ => Err TypeError
  end.

(** [self._check_recent_date(output_file) or from_date] *)
Definition recent_or (recent : option datetime) (from_date : pyval) : pyval :=
  match recent with
  | Some d => PDt d
  | None => from_date
  end.

(** [if self.update: from_date = self._check_recent_date(output_file) or from_date] *)
Definition effective_from_date (self : Google) (output_file : string)
    (from_date : pyval) : M St pyval :=
  if truthy (update self)
  then recent <- _check_recent_date output_file ;;
       ret (recent_or recent from_date)
  else ret from_date.

(** [f"{self.output_path}/{from_date}_{to_date}"] and
    [f"{folder}/{app}_logs.json"] *)
Definition folder_of (self : Google) (from_date to_date : pyval) : string :=
  py_str (output_path self) +:+ "/" +:+ py_str from_date
  +:+ "_" +:+ py_str to_date.

Definition output_file_of (self : Google) (from_date to_date : pyval)
    (app : string) : string :=
  folder_of self from_date to_date +:+ "/" +:+ app +:+ "_logs.json".

(** The [for app in self.app_list] loop.  [from_date] is the local variable
    of [get_logs]: an assignment in one iteration is seen by the next.  The
    result is the pair logged on the final [TOTAL] line. *)
Fixpoint get_logs_loop (fuel : nat) (self : Google) (apps : list string)
    (from_date to_date : pyval) (total_saved total_found : Z) : M St (Z * Z) :=
  match apps with
  | [] => ret (total_saved, total_found)
  | app :: rest =>
      let output_file := output_file_of self from_date to_date app in
      from_date <- effective_from_date self output_file from_date ;;
      counts <- _get_activity_logs fuel app output_file (overwrite self)
                  from_date to_date ;;
      total_saved <- lift (iadd total_saved (fst counts)) ;;
      total_found <- lift (iadd total_found (snd counts)) ;;
      get_logs_loop fuel self rest from_date to_date total_saved total_found
  end.

Definition get_logs (fuel : nat) (self : Google) (from_date to_date : pyval)
  : M St (Z * Z) :=
  get_logs_loop fuel self (app_list self) from_date to_date 0 0.

(** *** The command line *)

(** Options given on the command line, after a successful
    [parser.parse_args()]; [None] and [false] are options not given. *)
Record cli := mk_cli {
  cli_config : option string;
  cli_creds_path : option string;
  cli_delegated_creds : option string;
  cli_output_path : option string;
  cli_apps : option string;
  cli_start_time : option string;
  cli_end_time : option string;
  cli_daily : bool;
  cli_update : bool;
  cli_overwrite : bool;
  (** [Some 40] for [--quiet], [Some 10] for [--debug] *)
  cli_log_level : option Z
}.

Definition DEFAULT_APPLICATIONS : list string :=
  ["chrome"; "admin"; "access_transparency"; "context_aware_access"; "gplus";
   "data_studio"; "mobile"; "groups_enterprise"; "calendar"; "chat"; "gcp";
   "drive"; "groups"; "keep"; "meet"; "jamboard"; "login"; "token"; "rules";
   "saml"; "user_accounts"].

Definition opt_str (o : option string) : json :=
  match o with
  | Some s => JStr s
  | None => JNull
  end.

(** The namespace built by the parser: one entry per [add_argument], with
    its default when the option is not given. *)
Definition parse_args (argv : cli) : gmap string json :=
  <["config" := JStr (default "config.json" (cli_config argv))]>
  (<["creds_path" := opt_str (cli_creds_path argv)]>
  (<["delegated_creds" := opt_str (cli_delegated_creds argv)]>
  (<["output_path" := opt_str (cli_output_path argv)]>
  (<["apps" := JStr (default (String.concat "," DEFAULT_APPLICATIONS) (cli_apps argv))]>
  (<["start_time" := opt_str (cli_start_time argv)]>
  (<["end_time" := opt_str (cli_end_time argv)]>
  (<["daily" := JBool (cli_daily argv)]>
  (<["update" := JBool (cli_update argv)]>
  (<["overwrite" := JBool (cli_overwrite argv)]>
  (<["log_level" := JInt (default 20 (cli_log_level argv))]> ∅)))))))))).

(** [args.name] *)
Definition getattr (args : gmap string json) (name : string) : result json :=
  match args !! name with
  | Some v => Ok v
  | None => Err AttributeError
  end.

(** [kwargs[name]] *)
Definition kwarg (kwargs : gmap string json) (name : string) : result json :=
  match kwargs !! name with
  | Some v => Ok v
  | None => Err KeyError
  end.

(** One iteration of [for key in config], [value] being [config[key]]:
    [if key not in args or not vars(args)[key]: vars(args)[key] = config[key]] *)
Definition merge_key (args : gmap string json) (item : string * json)
  : gmap string json :=
  let '(key, value) := item in
  match args !! key with
  | None => <[key := value]> args
  | Some current => if truthy_json current then args else <[key := value]> args
  end.

Definition merge_config (config args : gmap string json) : gmap string json :=
  foldl merge_key args (map_to_list config).

(** [if args.config and os.path.exists(args.config): ...]; [config_files]
    holds the parsed content of the JSON files that exist.  The parser
    always stores a [str] under [config]. *)
Definition load_config (config_files : gmap string (gmap string json))
    (args : gmap string json) : result (gmap string json) :=
  path <-? getattr args "config";
  if truthy_json path
  then match path with
       | JStr p => match config_files !! p with
                   | Some config => Ok (merge_config config args)
                   | None => Ok args
                   end
       | _ => Err TypeError
       end
  else Ok args.

(** [str.strip], [str.lower] and [str.split(',')] on ASCII text. *)
Definition is_space (c : Ascii.ascii) : bool :=
  let n := Ascii.N_of_ascii c in
  (N.leb 9 n && N.leb n 13) || (N.leb 28 n && N.leb n 32).

Definition lower_char (c : Ascii.ascii) : Ascii.ascii :=
  let n := Ascii.N_of_ascii c in
  if N.leb 65 n && N.leb n 90 then Ascii.ascii_of_N (n + 32) else c.

Fixpoint drop_space (l : list Ascii.ascii) : list Ascii.ascii :=
  match l with
  | [] => []
  | c :: rest => if is_space c then drop_space rest else l
  end.

Definition str_strip (s : string) : string :=
  String.string_of_list_ascii
    (rev (drop_space (rev (drop_space (String.list_ascii_of_string s))))).

Definition str_lower (s : string) : string :=
  String.string_of_list_ascii (map lower_char (String.list_ascii_of_string s)).

Fixpoint split_on (sep : Ascii.ascii) (cur : list Ascii.ascii) (l : list Ascii.ascii) : list string :=
  match l with
  | [] => [String.string_of_list_ascii (rev cur)]
  | c :: rest =>
      if Ascii.eqb c sep
      then String.string_of_list_ascii (rev cur) :: split_on sep [] rest
      else split_on sep (c :: cur) rest
  end.

Definition str_split (sep : Ascii.ascii) (s : string) : list string :=
  split_on sep [] (String.list_ascii_of_string s).

(** "Convert apps argument to list".  An empty string is left as it is;
    iterating over it later yields no application. *)
Definition convert_apps (apps : json) : result (list string) :=
  match apps with
  | JStr s =>
      if String.eqb (str_lower (str_strip s)) "all"
      then fetch_application_enum
      else if truthy_json apps
           then Ok (map (fun a => str_lower (str_strip a)) (str_split ","%char s))
           else Ok []
  | _ => Err AttributeError
  end.

(** The call of [Google] with [vars(args)] unpacked as keyword arguments,
    [apps] being the converted [args.apps].  A keyword named [self] clashes
    with the first parameter of [__init__]: the call raises [TypeError]
    before the body runs.  Every other keyword lands in [kwargs]. *)
Definition Google_init (kwargs : gmap string json) (apps : list string)
  : result Google :=
  _ <-? match kwargs !! "self" with
        | Some _ => Err TypeError
        | None => Ok tt
        end;
  creds_path <-? kwarg kwargs "creds_path";
  delegated <-? kwarg kwargs "delegated_creds";
  out <-? kwarg kwargs "output_path";
  _ <-? kwarg kwargs "apps";
  upd <-? kwarg kwargs "update";
  ovw <-? kwarg kwargs "overwrite";
  _ <-? ensure_output_path (PJ out);
  _ <-? google_session (PJ creds_path) (PJ delegated);
  Ok {| SERVICE_ACCOUNT_FILE := PJ creds_path;
        delegated_creds := PJ delegated;
        output_path := PJ out;
        app_list := apps;
        update := PJ upd;
        overwrite := PJ ovw |}.

(** *** The daily loop *)

(** [while start_time < end_time: ...]; [n] bounds the iterations. *)
Fixpoint daily_loop (fuel n : nat) (google : Google)
    (start_time end_time : datetime) : M St unit :=
  match n with
  | O => out_of_fuel
  | S n' =>
      continue <- lift (dt_lt start_time end_time) ;;
      if continue
      then
        let end_of_day := get_end_of_the_day start_time in
        late <- lift (dt_gt end_of_day end_time) ;;
        let end_of_day := if late then end_time else end_of_day in
        get_logs fuel google (PStr (strftime start_time))
                 (PStr (strftime end_of_day)) ;;;
        start_time <- lift (add_days start_time 1) ;;
        let start_time := get_start_of_the_day start_time in
        daily_loop fuel n' google start_time end_time
      else ret tt
  end.

(** More iterations than the loop can make: the date grows by one at each. *)
Definition daily_bound (start_time end_time : datetime) : nat :=
  Z.to_nat (toordinal end_time - toordinal start_time) + 2.

(** *** [__main__] *)

Definition main (fuel : nat) (argv : cli)
    (config_files : gmap string (gmap string json)) : M St unit :=
  let args := parse_args argv in
  args <- lift (load_config config_files args) ;;
  apps_arg <- lift (getattr args "apps") ;;
  apps <- lift (convert_apps apps_arg) ;;
  google <- lift (Google_init args apps) ;;
  daily <- lift (getattr args "daily") ;;
  if truthy_json daily
  then
    start_arg <- lift (getattr args "start_time") ;;
    start_time <- lift (strptime start_arg) ;;
    end_arg <- lift (getattr args "end_time") ;;
    end_time <- lift (strptime end_arg) ;;
    daily_loop fuel (daily_bound start_time end_time) google start_time end_time
  else
    from_date <- lift (getattr args "from_date") ;;
    get_logs fuel google (PJ from_date) PNone ;;;
    ret tt.

(** *** Views used to state properties *)

(** [walks app st en s tok pages s' tok']: from the service state [s] and
    the page token [tok], the list calls of the loop succeed [length pages]
    times, each answer carrying a non-empty [nextPageToken]; [pages] are
    the [items] of the answers, [s'] and [tok'] the state and the token
    before the next call. *)
Inductive walks (application_name : string) (start_time end_time : pyval)
  : St -> option string -> list (list json) -> St -> option string -> Prop :=
| walks_nil s tok :
    walks application_name start_time end_time s tok [] s tok
| walks_cons s tok results s1 t pages s' tok' :
    list_execute s (list_request application_name start_time end_time tok)
      = (Ok results, s1) ->
    nextPageToken results = Some t ->
    t <> "" ->
    walks application_name start_time end_time s1 (Some t) pages s' tok' ->
    walks application_name start_time end_time s tok
      (default [] (items results) :: pages) s' tok'.

(** The lines of a sequence of pages, each page reversed. *)
Definition page_lines (pages : list (list json)) : list string :=
  concat (map (fun page => map line_of (rev page)) pages).

(** The characters of a file, from its lines. *)
Fixpoint file_text (content : list string) : string :=
  match content with
  | [] => ""
  | line :: rest => line +:+ file_text rest
  end.

(** The file is empty or its last line ends with a line break. *)
Fixpoint complete (content : list string) : bool :=
  match content with
  | [] => true
  | [line] => ends_with_newline line
  | _ :: rest => complete rest
  end.

(** Lower-case letters, digits and the underscore, of which the names of
    the API's applications are made.  Such a name is a single component of
    a path, so that two of them name the same file of a folder only when
    they are equal. *)
Definition name_char (c : Ascii.ascii) : bool :=
  let n := Ascii.N_of_ascii c in
  (N.leb 97 n && N.leb n 122) || (N.leb 48 n && N.leb n 57) || N.eqb n 95.

Definition plain_name (a : string) : bool :=
  forallb name_char (String.list_ascii_of_string a).

(** The windows [(start_time, end_of_day)] of the successive iterations of
    [daily_loop], and how the loop ends. *)
Inductive loop_exit :=
| ExitDone
| ExitRaised (e : exn)
| ExitFuel.

Fixpoint daily_windows (n : nat) (start_time end_time : datetime)
  : list (datetime * datetime) * loop_exit :=
  match n with
  | O => ([], ExitFuel)
  | S n' =>
      match dt_lt start_time end_time with
      | Err e => ([], ExitRaised e)
      | Ok false => ([], ExitDone)
      | Ok true =>
          let end_of_day := get_end_of_the_day start_time in
          match dt_gt end_of_day end_time with
          | Err e => ([], ExitRaised e)
          | Ok late =>
              let end_of_day := if late then end_time else end_of_day in
              match add_days start_time 1 with
              | Err e => ([(start_time, end_of_day)], ExitRaised e)
              | Ok next =>
                  let '(ws, x) :=
                    daily_windows n' (get_start_of_the_day next) end_time in
                  ((start_time, end_of_day) :: ws, x)
              end
          end
      end
  end.

(** A datetime within the range of the type. *)
Definition valid_datetime (d : datetime) : Prop :=
  1 <= toordinal d <= MAXORDINAL /\ 0 <= day_micros d < DAY_MICROS.

(** Number of calendar days that the range from [start_time] up to, and not
    including, [end_time] touches. *)
Definition calendar_days (start_time end_time : datetime) : Z :=
  toordinal end_time - toordinal start_time
  + (if day_micros end_time =? 0 then 0 else 1).

(** First and last instant of the [k]-th day after the day of [d]. *)
Definition day_start (d : datetime) (k : Z) : datetime :=
  {| toordinal := toordinal d + k; day_micros := time_min; utcoffset := None |}.

Definition day_end (d : datetime) (k : Z) : datetime :=
  {| toordinal := toordinal d + k; day_micros := time_max; utcoffset := None |}.

(** How [daily_loop] ends, and the calls of [get_logs] for a list of
    windows followed by that end. *)
Definition finish (x : loop_exit) : M St unit :=
  match x with
  | ExitDone => ret tt
  | ExitRaised e => raise e
  | ExitFuel => out_of_fuel
  end.

Fixpoint call_windows (fuel : nat) (google : Google)
    (ws : list (datetime * datetime)) (x : loop_exit) : M St unit :=
  match ws with
  | [] => finish x
  | (start_time, end_of_day) :: rest =>
      get_logs fuel google (PStr (strftime start_time))
               (PStr (strftime end_of_day)) ;;;
      call_windows fuel google rest x
  end.

(** The call of [_get_activity_logs] that the window [(from_date,
    to_date)] of [get_logs] announces for [app]. *)
Definition planned_call (self : Google) (from_date to_date : pyval)
    (app : string) : fetch_call :=
  {| fc_application_name := app;
     fc_output_file := output_file_of self from_date to_date app;
     fc_overwrite := overwrite self;
     fc_start_time := from_date;
     fc_end_time := to_date |}.

(** The calls of [_get_activity_logs] made by a run of [get_logs] over
    [apps], [before] being the calls made earlier: a run that returns has
    made the planned call of every application, in the order of the list; a
    run that does not return has made the planned calls up to and including
    the application at which it stopped, and none for those after it. *)
Definition calls_planned (self : Google) (from_date to_date : pyval)
    (apps : list string) (before : list fetch_call)
    (run : outcome (Z * Z) * world St) : Prop :=
  match fst run with
  | Returned _ =>
      fetch_calls (snd run)
      = before ++ map (planned_call self from_date to_date) apps
  | _ =>
      exists done app rest,
        apps = done ++ app :: rest
        /\ fetch_calls (snd run)
           = before ++ map (planned_call self from_date to_date) (done ++ [app])
  end.

(** An application name as [convert_apps] leaves it: trimmed, in lower
    case; and one that holds no comma. *)
Definition normal_name (a : string) : Prop :=
  str_strip a = a /\ str_lower a = a.

Definition comma_free (a : string) : Prop :=
  ~ In ","%char (String.list_ascii_of_string a).

(** Windows of which each starts one microsecond after the one before it
    ends. *)
Fixpoint chained (ws : list (datetime * datetime)) : Prop :=
  match ws with
  | a :: rest =>
      match rest with
      | b :: _ => utc (snd a) + 1 = utc (fst b) /\ chained rest
      | [] => True
      end
  | [] => True
  end.

(** Windows of which each ends where the next one starts. *)
Definition windows_meet (ws : list (datetime * datetime)) : Prop :=
  forall i a b, ws !! i = Some a -> ws !! S i = Some b -> snd a = fst b.

(** The configuration that [load_config] merges into the parsed
    arguments of [argv]: the content of the file named by [--config]
    (default [config.json]) when it exists, nothing otherwise. *)
Definition config_of (config_files : gmap string (gmap string json))
    (argv : cli) : gmap string json :=
  let path := default "config.json" (cli_config argv) in
  if truthy_json (JStr path)
  then default ∅ (config_files !! path)
  else ∅.

(** What the namespace holds under [key] once a configuration value
    [value] for it has been considered. *)
Definition resolved (current : option json) (value : json) : json :=
  match current with
  | None => value
  | Some cli_value => if truthy_json cli_value then cli_value else value
  end.

(** The last page that holds a record, if any. *)
Fixpoint last_nonempty (pages : list (list json)) : option (list json) :=
  match pages with
  | [] => None
  | page :: rest =>
      match last_nonempty rest with
      | Some later => Some later
      | None => match page with [] => None | _ :: _ => Some page end
      end
  end.

(** Number of records in a sequence of pages. *)
Definition page_total (pages : list (list json)) : Z :=
  Z.of_nat (length (concat pages)).

End Program.

(** ** A test double for the libraries

    Used to run the program on concrete inputs.  The remote service is a
    script of canned answers, served in order; [json.loads] recognises the
    lines of a fixed corpus and rejects every other text; timestamps have
    the shape [YYYY-MM-DDTHH:MM:SS] with an optional final [Z]. *)

Module Demo.

Definition dquote : string := String (Ascii.ascii_of_nat 34) EmptyString.

Definition quoted (s : string) : string := dquote +:+ s +:+ dquote.

(** [json.dumps] with the default separators, for text without escapes. *)
Fixpoint dumps (j : json) : string :=
  match j with
  | JNull => "null"
  | JBool true => "true"
  | JBool false => "false"
  | JInt z => pretty z
  | JStr s => quoted s
  | JArr l =>
      "[" +:+
      (fix elems (l : list json) : string :=
         match l with
         | [] => ""
         | x :: rest =>
             dumps x +:+ match rest with [] => "" | _ => ", " +:+ elems rest end
         end) l
      +:+ "]"
  | JObj l =>
      "{" +:+
      (fix members (l : list (string * json)) : string :=
         match l with
         | [] => ""
         | (k, v) :: rest =>
             quoted k +:+ ": " +:+ dumps v
             +:+ match rest with [] => "" | _ => ", " +:+ members rest end
         end) l
      +:+ "}"
  end.

(** A record of the API with the given [id.time] and event name. *)
Definition activity (time name : string) : json :=
  JObj [("id", JObj [("time", JStr time)]); ("name", JStr name)].

Definition corpus : list json :=
  [ activity "2024-01-01T10:00:00Z" "a";
    activity "2024-01-01T11:00:00Z" "b";
    activity "2024-01-01T12:00:00Z" "c";
    activity "2024-01-02T09:30:00Z" "d";
    activity "2024-01-02T09:30:00" "e";
    JObj [("name", JStr "f")];
    JObj [("id", JStr "g")];
    JArr [JInt 1] ].

Definition loads (text : string) : result json :=
  match List.find (fun j => String.eqb (dumps j +:+ nl) text
                            || String.eqb (dumps j) text) corpus with
  | Some j => Ok j
  | None => Err ValueError
  end.

(** Decimal digits. *)
Definition digit (c : Ascii.ascii) : option Z :=
  let n := Z.of_N (Ascii.N_of_ascii c) in
  if (48 <=? n) && (n <=? 57) then Some (n - 48) else None.

Fixpoint number (acc : Z) (l : list Ascii.ascii) : option Z :=
  match l with
  | [] => Some acc
  | c :: rest => match digit c with
                 | Some d => number (10 * acc + d) rest
                 | None => None
                 end
  end.

Definition field (start len : nat) (s : string) : option Z :=
  number 0 (String.list_ascii_of_string (String.substring start len s)).

Definition is_leap (y : Z) : bool :=
  (y mod 4 =? 0) && (negb (y mod 100 =? 0) || (y mod 400 =? 0)).

Definition days_in_month (y m : Z) : Z :=
  if m =? 2 then (if is_leap y then 29 else 28)
  else if (m =? 4) || (m =? 6) || (m =? 9) || (m =? 11) then 30 else 31.

Fixpoint days_before_month (y : Z) (m : nat) : Z :=
  match m with
  | O => 0
  | S m' => days_before_month y m' + days_in_month y (Z.of_nat m)
  end.

(** [date(y, m, d).toordinal()] *)
Definition ymd2ord (y m d : Z) : Z :=
  let y' := y - 1 in
  y' * 365 + y' / 4 - y' / 100 + y' / 400
  + days_before_month y (Z.to_nat (m - 1)) + d.

(** Text [YYYY-MM-DDTHH:MM:SS], then [tail]. *)
Definition parse_stamp (s : string) : option (Z * Z) :=
  match field 0 4 s, field 5 2 s, field 8 2 s,
        field 11 2 s, field 14 2 s, field 17 2 s with
  | Some y, Some m, Some d, Some hh, Some mm, Some ss =>
      if String.eqb (String.substring 4 1 s) "-"
         && String.eqb (String.substring 7 1 s) "-"
         && String.eqb (String.substring 10 1 s) "T"
         && String.eqb (String.substring 13 1 s) ":"
         && String.eqb (String.substring 16 1 s) ":"
         && (1 <=? y) && (y <=? 9999) && (1 <=? m) && (m <=? 12)
         && (1 <=? d) && (d <=? days_in_month y m)
         && (hh <=? 23) && (mm <=? 59) && (ss <=? 59)
      then Some (ymd2ord y m d, ((hh * 60 + mm) * 60 + ss) * 1000000)
      else None
  | _, _, _, _, _, _ => None
  end.

(** [dateutil.parser.parse]: naive without zone, UTC with a final [Z]. *)
Definition parse (s : string) : result datetime :=
  match parse_stamp s with
  | Some (o, us) =>
      if (String.length s =? 19)%nat
      then Ok {| toordinal := o; day_micros := us; utcoffset := None |}
      else if (String.length s =? 20)%nat && String.eqb (String.substring 19 1 s) "Z"
           then Ok {| toordinal := o; day_micros := us; utcoffset := Some 0 |}
           else Err ValueError
  | None => Err ValueError
  end.

(** [strptime] with the literal [Z] of the format: the result is naive. *)
Definition parse_fmt (v : json) : result datetime :=
  match v with
  | JStr s =>
      match parse_stamp s with
      | Some (o, us) =>
          if (String.length s =? 20)%nat && String.eqb (String.substring 19 1 s) "Z"
          then Ok {| toordinal := o; day_micros := us; utcoffset := None |}
          else Err ValueError
      | None => Err ValueError
      end
  | _ => Err TypeError
  end.

(** Year, month and day of an ordinal, by the division steps of
    [datetime._ord2ymd]. *)
Fixpoint month_of (y : Z) (m : nat) (n : Z) : Z * Z :=
  match m with
  | O => (1, n + 1)
  | S m' =>
      let before := days_before_month y m in
      if before <=? n then (Z.of_nat m + 1, n - before + 1) else month_of y m' n
  end.

Definition ord2ymd (ordinal : Z) : Z * Z * Z :=
  let n := ordinal - 1 in
  let n400 := n / 146097 in
  let n := n mod 146097 in
  let n100 := n / 36524 in
  let n := n mod 36524 in
  let n4 := n / 1461 in
  let n := n mod 1461 in
  let n1 := n / 365 in
  let n := n mod 365 in
  let year := n400 * 400 + 1 + n100 * 100 + n4 * 4 + n1 in
  if (n1 =? 4) || (n100 =? 4)
  then (year - 1, 12, 31)
  else let '(m, d) := month_of year 11 n in (year, m, d).

Definition pad (width : nat) (z : Z) : string :=
  let s := pretty z in
  String.concat "" (replicate (width - String.length s) "0") +:+ s.

Definition date_text (d : datetime) : string :=
  let '(y, m, dd) := ord2ymd (toordinal d) in
  pad 4 y +:+ "-" +:+ pad 2 m +:+ "-" +:+ pad 2 dd.

Definition time_text (d : datetime) : string :=
  let s := day_micros d / 1000000 in
  pad 2 (s / 3600) +:+ ":" +:+ pad 2 (s / 60 mod 60) +:+ ":" +:+ pad 2 (s mod 60).

(** [strftime] with the format of the script: whole seconds, literal [Z]. *)
Definition format_fmt (d : datetime) : string :=
  date_text d +:+ "T" +:+ time_text d +:+ "Z".

(** [str(d)]: ISO text with a space, microseconds when not zero, offset when
    aware (whole minutes). *)
Definition str_of (d : datetime) : string :=
  date_text d +:+ " " +:+ time_text d
  +:+ (let us := day_micros d mod 1000000 in
       if us =? 0 then "" else "." +:+ pad 6 us)
  +:+ match utcoffset d with
      | None => ""
      | Some off =>
          let m := Z.abs off / 60000000 in
          (if off <? 0 then "-" else "+") +:+ pad 2 (m / 60) +:+ ":" +:+ pad 2 (m mod 60)
      end.

(** The scripted service: each call takes the next canned answer. *)
Definition script_execute (s : list (result response)) (req : request)
  : result response * list (result response) :=
  match s with
  | r :: rest => (r, rest)
  | [] => (Err (OtherError "StopIteration"), [])
  end.

Definition page (records : list json) (next : option string) : result response :=
  Ok {| items := Some records; nextPageToken := next |}.

#[global] Instance libs : PyLibs (list (result response)) := {|
  json_loads := loads;
  json_dumps := dumps;
  dateparser_parse := parse;
  strptime := parse_fmt;
  strftime := format_fmt;
  str_datetime := str_of;
  repr_json := dumps;
  list_execute := script_execute;
  fetch_application_enum := Ok DEFAULT_APPLICATIONS;
  ensure_output_path := fun p => match p with PJ (JStr _) => Ok tt | _ => Err TypeError end;
  google_session := fun _ _ => Ok tt
|}.

Definition rec_a : json := activity "2024-01-01T10:00:00Z" "a".
Definition rec_b : json := activity "2024-01-01T11:00:00Z" "b".
Definition rec_c : json := activity "2024-01-01T12:00:00Z" "c".
Definition rec_d : json := activity "2024-01-02T09:30:00Z" "d".

(** A client writing under [out], for the given flags and applications. *)
Definition google (upd ovw : bool) (apps : list string) : Google :=
  {| SERVICE_ACCOUNT_FILE := PStr "creds.json";
     delegated_creds := PStr "admin@example.com";
     output_path := PStr "out";
     app_list := apps;
     update := PJ (JBool upd);
     overwrite := PJ (JBool ovw) |}.

Definition start_world (fs : gmap string (list string))
    (script : list (result response)) : world (list (result response)) :=
  {| files := fs; svc := script; fs_events := []; fetch_calls := [] |}.

Definition rec_e : json := activity "2024-01-02T09:30:00" "e".

Definition at_ten : datetime :=
  {| toordinal := 738886; day_micros := 36000000000; utcoffset := Some 0 |}.
Definition at_eleven : datetime :=
  {| toordinal := 738886; day_micros := 39600000000; utcoffset := Some 0 |}.
Definition at_noon : datetime :=
  {| toordinal := 738886; day_micros := 43200000000; utcoffset := Some 0 |}.

(** Overwrite run over an absent file: pages [[a; b]] then [[c]]. *)
Definition two_pages : world (list (result response)) :=
  start_world ∅ [page [rec_a; rec_b] (Some "t2"); page [rec_c] None].

(** Overwrite run over a file of one line: pages [[a]] then [[b]]. *)
Definition two_pages_over_old : world (list (result response)) :=
  start_world {[ "out/drive_logs.json" := ["old"] ]}
    [page [rec_a] (Some "t2"); page [rec_b] None].

(** Append run over a file of one line that ends with a line break: pages
    [[a]] then [[b]]. *)
Definition two_pages_after_old_line : world (list (result response)) :=
  start_world {[ "out/drive_logs.json" := ["old" +:+ nl] ]}
    [page [rec_a] (Some "t2"); page [rec_b] None].

(** Update run for [admin] then [drive]: [admin] has three records on disk,
    [drive] none; the service has nothing new for [admin] and one record
    for [drive]. *)
Definition admin_on_disk : world (list (result response)) :=
  start_world
    {[ "out/2024-01-01T00:00:00Z_2024-01-02T00:00:00Z/admin_logs.json" :=
         [dumps rec_a +:+ nl; dumps rec_c +:+ nl; dumps rec_b +:+ nl] ]}
    [page [] None; page [rec_d] None].

(** Update run for [login] then [token]: [login] has one record on disk. *)
Definition login_on_disk : world (list (result response)) :=
  start_world
    {[ "out/2024-01-01T00:00:00Z_None/login_logs.json" := [dumps rec_a +:+ nl] ]}
    [page [] None; page [rec_b] None].

(** A log file whose two lines carry an aware and a naive timestamp. *)
Definition mixed_log : world (list (result response)) :=
  start_world {[ "out/mixed.json" := [dumps rec_d +:+ nl; dumps rec_e +:+ nl] ]} [].

(** A command line that names the credentials, the principal, one
    application and nothing else. *)
Definition argv_plain : cli :=
  {| cli_config := None;
     cli_creds_path := Some "creds.json";
     cli_delegated_creds := Some "admin@example.com";
     cli_output_path := None;
     cli_apps := Some "drive";
     cli_start_time := None;
     cli_end_time := None;
     cli_daily := false;
     cli_update := false;
     cli_overwrite := false;
     cli_log_level := None |}.

(** A configuration file with an output folder and other credentials. *)
Definition plain_config : gmap string json :=
  {[ "output_path" := JStr "out"; "creds_path" := JStr "other.json" ]}.

(** A configuration file that turns the daily split on. *)
Definition daily_config : gmap string json :=
  {[ "output_path" := JStr "out";
     "daily" := JBool true;
     "start_time" := JStr "2024-01-01T00:00:00Z";
     "end_time" := JStr "2024-01-01T12:00:00Z" ]}.

(** A service with one record to give. *)
Definition one_record : world (list (result response)) :=
  start_world ∅ [page [rec_a] None].

(** 2024-01-01 00:00:00 and 2024-01-03 12:00:00, naive. *)
Definition jan_1 : datetime :=
  {| toordinal := 738886; day_micros := 0; utcoffset := None |}.
Definition jan_3_noon : datetime :=
  {| toordinal := 738888; day_micros := 43200000000; utcoffset := None |}.

(** A log file whose second line is not JSON, and one whose second line is
    a JSON object without [id]. *)
Definition broken_log : world (list (result response)) :=
  start_world {[ "out/broken.json" := [dumps rec_a +:+ nl; "not json" +:+ nl] ]} [].

Definition no_id_log : world (list (result response)) :=
  start_world
    {[ "out/no_id.json" :=
         [dumps rec_a +:+ nl; dumps (JObj [("name", JStr "f")]) +:+ nl] ]} [].

(** A log file of three records, the latest in the middle. *)
Definition three_records : world (list (result response)) :=
  start_world
    {[ "out/admin_logs.json" :=
         [dumps rec_a +:+ nl; dumps rec_c +:+ nl; dumps rec_b +:+ nl] ]} [].

(** A command line with no option at all. *)
Definition argv_bare : cli :=
  {| cli_config := None;
     cli_creds_path := None;
     cli_delegated_creds := None;
     cli_output_path := None;
     cli_apps := None;
     cli_start_time := None;
     cli_end_time := None;
     cli_daily := false;
     cli_update := false;
     cli_overwrite := false;
     cli_log_level := None |}.

(** A configuration file that names one application. *)
Definition apps_config : gmap string json :=
  {[ "apps" := JStr "drive" ]}.

(** A configuration file with an output folder and a [from_date]. *)
Definition from_date_config : gmap string json :=
  {[ "output_path" := JStr "out";
     "from_date" := JStr "2024-01-01T00:00:00Z" ]}.

(** A file of one line and a service that answers two pages without
    records. *)
Definition empty_pages_over_old : world (list (result response)) :=
  start_world {[ "out/drive_logs.json" := ["old"] ]}
    [page [] (Some "t2"); page [] None].

(** Nothing on disk; the service has two pages for the first application
    and one for the second. *)
Definition two_applications : world (list (result response)) :=
  start_world ∅
    [page [rec_a] (Some "t2"); page [rec_b] None; page [rec_c] None].

(** A configuration file that names one application, an output folder and
    a [from_date]; a service that has no record for anyone. *)
Definition drive_config : gmap string json :=
  {[ "apps" := JStr "drive";
     "output_path" := JStr "out";
     "from_date" := JStr "2024-01-01T00:00:00Z" ]}.

Definition quiet_service : world (list (result response)) :=
  start_world ∅ (replicate 21 (page [] None)).

(** A service whose first answer is an HTTP error. *)
Definition failing_service : world (list (result response)) :=
  start_world ∅ [Err (OtherError "HttpError"); page [rec_a] None].

(** The file of [admin] for the window [(None, None)] holds a line that is
    not JSON. *)
Definition broken_admin_on_disk : world (list (result response)) :=
  start_world
    {[ "out/None_None/admin_logs.json" := [dumps rec_a +:+ nl; "not json" +:+ nl] ]}
    [page [rec_b] None].

End Demo.

(** * Properties *)

Section Proofs.
Context {St : Type} {libs : PyLibs St}.
Implicit Types (w : world St) (f : string).

(** ** The writer *)

Lemma string_app_assoc (a b c : string) : (a +:+ b) +:+ c = a +:+ (b +:+ c).
Proof.
  induction a as [|x a IH]; [reflexivity|].
  change (String x ((a +:+ b) +:+ c) = String x (a +:+ (b +:+ c))).
  now f_equal.
Qed.

Lemma string_app_nil_r (a : string) : a +:+ "" = a.
Proof.
  induction a as [|x a IH]; [reflexivity|].
  change (String x (a +:+ "") = String x a). now f_equal.
Qed.

Lemma ends_with_newline_snoc (a : string) : ends_with_newline (a +:+ nl) = true.
Proof.
  induction a as [|x a IH]; [reflexivity|].
  change (String x a +:+ nl) with (String x (a +:+ nl)).
  cbn [ends_with_newline]. rewrite IH. now destruct a.
Qed.

(** The text of a record is never empty and ends its line, also when it
    continues a line. *)
Lemma line_of_nonempty entry : String.eqb (line_of entry) "" = false.
Proof. unfold line_of. now destruct (json_dumps entry). Qed.

Lemma line_of_ends (a : string) entry :
  ends_with_newline (a +:+ line_of entry) = true.
Proof.
  unfold line_of. rewrite <- string_app_assoc. apply ends_with_newline_snoc.
Qed.

Lemma append_text_complete content text :
  complete content = true -> append_text content text = content ++ [text].
Proof.
  induction content as [|line [|next rest] IH]; intros Hc.
  - reflexivity.
  - cbn in Hc. cbn. now rewrite Hc.
  - change (append_text (line :: next :: rest) text)
      with (line :: append_text (next :: rest) text).
    rewrite IH by exact Hc. reflexivity.
Qed.

Lemma complete_append_text content entry :
  complete (append_text content (line_of entry)) = true.
Proof.
  induction content as [|line [|next rest] IH].
  - apply (line_of_ends "").
  - cbn [append_text]. destruct (ends_with_newline line).
    + apply (line_of_ends "").
    + cbn [complete]. apply line_of_ends.
  - change (append_text (line :: next :: rest) (line_of entry))
      with (line :: append_text (next :: rest) (line_of entry)).
    destruct (append_text (next :: rest) (line_of entry)) eqn:Hnext.
    + now destruct rest as [|? [|? ?]]; cbn in Hnext;
        try destruct (ends_with_newline next).
    + exact IH.
Qed.

Lemma file_text_append_text content text :
  file_text (append_text content text) = file_text content +:+ text.
Proof.
  induction content as [|line [|next rest] IH].
  - cbn. apply string_app_nil_r.
  - cbn [append_text]. destruct (ends_with_newline line); cbn.
    + now rewrite !string_app_nil_r.
    + now rewrite !string_app_nil_r.
  - change (append_text (line :: next :: rest) text)
      with (line :: append_text (next :: rest) text).
    change (file_text (line :: append_text (next :: rest) text))
      with (line +:+ file_text (append_text (next :: rest) text)).
    rewrite IH. symmetry. apply string_app_assoc.
Qed.

(** Records written one after the other: on a file that is empty or ends
    with a line break each is a line of its own; in any case the characters
    are added after those of the file. *)
Lemma append_lines_complete content entries :
  complete content = true ->
  foldl append_text content (map line_of entries)
  = content ++ map line_of entries
  /\ complete (content ++ map line_of entries) = true.
Proof.
  revert content. induction entries as [|entry rest IH]; intros content Hc.
  - cbn. now rewrite app_nil_r.
  - cbn [map foldl]. rewrite (append_text_complete _ _ Hc).
    destruct (IH (content ++ [line_of entry])) as [Hrun Hend].
    + rewrite <- (append_text_complete _ _ Hc). apply complete_append_text.
    + rewrite <- app_assoc in Hrun, Hend. auto.
Qed.

Lemma file_text_app (a b : list string) :
  file_text (a ++ b) = file_text a +:+ file_text b.
Proof.
  induction a as [|line a IH]; [reflexivity|].
  cbn. now rewrite IH, string_app_assoc.
Qed.

Lemma file_text_append_lines content lines :
  file_text (foldl append_text content lines)
  = file_text content +:+ file_text lines.
Proof.
  revert content. induction lines as [|line rest IH]; intros content.
  - cbn. now rewrite string_app_nil_r.
  - cbn [foldl file_text]. rewrite IH, file_text_append_text.
    apply string_app_assoc.
Qed.

Lemma write_entries_spec entries f output_count w :
  write_entries f entries output_count w =
  (Returned (output_count + Z.of_nat (length entries)),
   {| files := alter (fun content =>
                        foldl append_text content (map line_of entries))
                 f (files w);
      svc := svc w;
      fs_events := fs_events w ++ map (fun e => EvWrite f (line_of e)) entries;
      fetch_calls := fetch_calls w |}).
Proof.
  revert output_count w.
  induction entries as [|entry rest IH]; intros output_count w; simpl.
  - unfold ret. destruct w as [fs s ev fc]; simpl.
    rewrite Z.add_0_r, app_nil_r. f_equal. f_equal.
    symmetry. now apply alter_id.
  - unfold bind, write. rewrite IH. simpl.
    rewrite alter_alter_eq, <- app_assoc. simpl.
    f_equal; [f_equal; lia|]. f_equal.
    apply alter_ext. intros x _. simpl. now rewrite line_of_nonempty.
Qed.

(** A page is always stored: the counters grow by its length, only the
    output file changes, and in append mode the reversed page is written
    at its end. *)
Lemma store_page_spec f ow activities output_count total_records w :
  exists w',
    store_page f ow activities output_count total_records w =
      (Returned (output_count + Z.of_nat (length activities),
                 total_records + Z.of_nat (length activities)), w')
    /\ svc w' = svc w
    /\ fetch_calls w' = fetch_calls w
    /\ (forall p, p <> f -> files w' !! p = files w !! p)
    /\ (truthy ow = false ->
        default [] (files w' !! f) =
        foldl append_text (default [] (files w !! f))
          (map line_of (rev activities))).
Proof.
  destruct activities as [|a rest].
  - exists w. simpl. unfold ret. rewrite !Z.add_0_r. auto.
  - unfold store_page, bind, open_file.
    rewrite write_entries_spec. cbn [files svc fs_events fetch_calls].
    eexists. split; [|split; [|split; [|split]]].
    + rewrite length_rev. reflexivity.
    + reflexivity.
    + reflexivity.
    + intros p Hp. cbn [files]. rewrite lookup_alter_ne by congruence.
      destruct (truthy ow); now rewrite lookup_insert_ne by congruence.
    + intros Hw. cbn [files]. rewrite Hw, lookup_alter_eq, lookup_insert_eq.
      reflexivity.
Qed.

(** ** The pagination loop *)

Lemma loop_answer fuel app f ow st en tok oc tr w results s1 :
  list_execute (svc w) (list_request app st en tok) = (Ok results, s1) ->
  _get_activity_logs_loop (S fuel) app f ow st en tok oc tr w =
  bind (store_page f ow (default [] (items results)) oc tr)
       (fun counts =>
          if String.eqb (default "" (nextPageToken results)) ""
          then ret (JInt (fst counts), JInt (snd counts))
          else _get_activity_logs_loop fuel app f ow st en
                 (Some (default "" (nextPageToken results)))
                 (fst counts) (snd counts))
       (with_svc s1 w).
Proof.
  intros Hcall. cbn [_get_activity_logs_loop].
  unfold bind at 1. unfold execute_list. rewrite Hcall. reflexivity.
Qed.

Lemma loop_type_error_now fuel app f ow st en tok oc tr w s1 :
  list_execute (svc w) (list_request app st en tok) = (Err TypeError, s1) ->
  _get_activity_logs_loop (S fuel) app f ow st en tok oc tr w =
  (Returned (JBool false, JBool false), with_svc s1 w).
Proof.
  intros Hcall. cbn [_get_activity_logs_loop].
  unfold bind, execute_list. rewrite Hcall. reflexivity.
Qed.

(** A [TypeError] of the list call, at the first page or at a later one,
    ends the loop with [(False, False)]. *)
Lemma loop_type_error app f ow st en s tok pages s1 tok1 s2 :
  walks app st en s tok pages s1 tok1 ->
  list_execute s1 (list_request app st en tok1) = (Err TypeError, s2) ->
  forall fuel oc tr w,
    svc w = s -> (length pages < fuel)%nat ->
    exists w',
      _get_activity_logs_loop fuel app f ow st en tok oc tr w =
        (Returned (JBool false, JBool false), w')
      /\ svc w' = s2
      /\ fetch_calls w' = fetch_calls w.
Proof.
  induction 1 as [s tok|s tok results s1 t pages s' tok' Hcall Htok Hne Hw IH];
    intros Hlast fuel oc tr w Hs Hfuel;
    (destruct fuel as [|fuel]; [simpl in Hfuel; lia|]); subst s.
  - rewrite (loop_type_error_now _ _ _ _ _ _ _ _ _ _ _ Hlast).
    eexists. split; [reflexivity|]. split; reflexivity.
  - rewrite (loop_answer _ _ _ _ _ _ _ _ _ _ _ _ Hcall).
    destruct (store_page_spec f ow (default [] (items results)) oc tr
                (with_svc s1 w)) as (w2 & Hst & Hsvc & Hfc & _).
    unfold bind. rewrite Hst, Htok. cbn [default from_option id fst snd].
    apply String.eqb_neq in Hne. rewrite Hne.
    destruct (IH Hlast fuel (oc + Z.of_nat (length (default [] (items results))))
                (tr + Z.of_nat (length (default [] (items results)))) w2)
      as (w3 & Hrun & Hsvc3 & Hfc3).
    + now rewrite Hsvc.
    + simpl in Hfuel. lia.
    + exists w3. rewrite Hrun, Hfc3, Hfc. auto.
Qed.

Lemma page_total_cons page pages :
  page_total (page :: pages) = Z.of_nat (length page) + page_total pages.
Proof. unfold page_total. simpl. rewrite length_app. lia. Qed.

Lemma page_lines_cons page pages :
  page_lines (page :: pages) = map line_of (rev page) ++ page_lines pages.
Proof. reflexivity. Qed.

(** In append mode a pagination that runs to its last page writes the
    pages, each reversed, after what the file held. *)
Lemma loop_append app f ow st en s tok pages s1 tok1 last s2 :
  walks app st en s tok pages s1 tok1 ->
  list_execute s1 (list_request app st en tok1) = (Ok last, s2) ->
  default "" (nextPageToken last) = "" ->
  truthy ow = false ->
  forall fuel oc tr w,
    svc w = s -> (length pages < fuel)%nat ->
    exists w',
      _get_activity_logs_loop fuel app f ow st en tok oc tr w =
        (Returned (JInt (oc + page_total (pages ++ [default [] (items last)])),
                   JInt (tr + page_total (pages ++ [default [] (items last)]))),
         w')
      /\ default [] (files w' !! f) =
         foldl append_text (default [] (files w !! f))
           (page_lines (pages ++ [default [] (items last)]))
      /\ (forall p, p <> f -> files w' !! p = files w !! p)
      /\ svc w' = s2
      /\ fetch_calls w' = fetch_calls w.
Proof.
  induction 1 as [s tok|s tok results s1 t pages s' tok' Hcall Htok Hne Hw IH];
    intros Hlast Hend Happend fuel oc tr w Hs Hfuel;
    (destruct fuel as [|fuel]; [simpl in Hfuel; lia|]); subst s.
  - rewrite (loop_answer _ _ _ _ _ _ _ _ _ _ _ _ Hlast).
    destruct (store_page_spec f ow (default [] (items last)) oc tr
                (with_svc s2 w)) as (w2 & Hst & Hsvc & Hfc & Hother & Hfile).
    unfold bind. rewrite Hst, Hend. cbn [String.eqb fst snd List.app].
    exists w2. rewrite page_total_cons, page_lines_cons.
    unfold page_total, page_lines. cbn [concat map length].
    rewrite app_nil_r, !Z.add_0_r.
    split; [reflexivity|]. split; [now apply Hfile|]. auto.
  - rewrite (loop_answer _ _ _ _ _ _ _ _ _ _ _ _ Hcall).
    destruct (store_page_spec f ow (default [] (items results)) oc tr
                (with_svc s1 w)) as (w2 & Hst & Hsvc & Hfc & Hother & Hfile).
    unfold bind. rewrite Hst, Htok. cbn [default from_option id fst snd].
    apply String.eqb_neq in Hne. rewrite Hne.
    destruct (IH Hlast Hend Happend fuel
                (oc + Z.of_nat (length (default [] (items results))))
                (tr + Z.of_nat (length (default [] (items results)))) w2)
      as (w3 & Hrun & Hfile3 & Hother3 & Hsvc3 & Hfc3).
    + now rewrite Hsvc.
    + simpl in Hfuel. lia.
    + exists w3. rewrite Hrun. cbn [List.app].
      rewrite page_total_cons, page_lines_cons, !Z.add_assoc.
      split; [reflexivity|].
      split; [rewrite Hfile3, (Hfile Happend), foldl_app; reflexivity|].
      split; [intros p Hp; rewrite Hother3, Hother by exact Hp; reflexivity|].
      split; [exact Hsvc3|]. rewrite Hfc3, Hfc. reflexivity.
Qed.

(** On a file that is empty or ends with a line break, the lines of the
    pages are lines of their own. *)
Lemma append_pages_complete content pages :
  complete content = true ->
  foldl append_text content (page_lines pages) = content ++ page_lines pages
  /\ complete (content ++ page_lines pages) = true.
Proof.
  revert content. induction pages as [|page pages IH]; intros content Hc.
  - cbn. now rewrite app_nil_r.
  - rewrite page_lines_cons, foldl_app.
    destruct (append_lines_complete content (rev page) Hc) as [Hpage Hend].
    rewrite Hpage. destruct (IH _ Hend) as [Hrun Hend'].
    rewrite <- app_assoc in Hrun, Hend'. auto.
Qed.

Lemma get_activity_logs_unfold fuel app f ow st en w :
  _get_activity_logs fuel app f ow st en w =
  _get_activity_logs_loop fuel app f ow st en None 0 0
    (with_fetch_call {| fc_application_name := app;
                        fc_output_file := f;
                        fc_overwrite := ow;
                        fc_start_time := st;
                        fc_end_time := en |} w).
Proof. reflexivity. Qed.

(** X1.  Append mode, whole fetch, on a file that is absent, empty or ends
    with a line break: the file holds the lines it held, followed by the
    records of all pages, each page reversed; both counters are the number
    of records; no other file changes. *)
Lemma append_mode_collects fuel app f ow st en w pages s1 tok1 last s2 :
  walks app st en (svc w) None pages s1 tok1 ->
  list_execute s1 (list_request app st en tok1) = (Ok last, s2) ->
  default "" (nextPageToken last) = "" ->
  truthy ow = false ->
  complete (default [] (files w !! f)) = true ->
  (length pages < fuel)%nat ->
  exists w',
    _get_activity_logs fuel app f ow st en w =
      (Returned (JInt (page_total (pages ++ [default [] (items last)])),
                 JInt (page_total (pages ++ [default [] (items last)]))), w')
    /\ default [] (files w' !! f) =
       default [] (files w !! f)
       ++ page_lines (pages ++ [default [] (items last)])
    /\ (forall p, p <> f -> files w' !! p = files w !! p).
Proof.
  intros Hwalk Hlast Hend Happend Hcomplete Hfuel.
  rewrite get_activity_logs_unfold.
  destruct (loop_append app f ow st en _ _ _ _ _ _ _ Hwalk Hlast Hend Happend
              fuel 0 0 (with_fetch_call
                          {| fc_application_name := app; fc_output_file := f;
                             fc_overwrite := ow; fc_start_time := st;
                             fc_end_time := en |} w) eq_refl Hfuel)
    as (w' & Hrun & Hfile & Hother & _).
  exists w'. rewrite Hrun. split; [reflexivity|]. split; [|exact Hother].
  rewrite Hfile. cbn [with_fetch_call files].
  now apply append_pages_complete.
Qed.

Lemma loop_error fuel app f ow st en tok oc tr w e s1 :
  list_execute (svc w) (list_request app st en tok) = (Err e, s1) ->
  snd (_get_activity_logs_loop (S fuel) app f ow st en tok oc tr w)
  = with_svc s1 w.
Proof.
  intros Hcall. cbn [_get_activity_logs_loop].
  unfold bind, execute_list. rewrite Hcall. now destruct e.
Qed.

(** Append mode, any run of the loop (complete, cut short by an exception
    or out of fuel): the characters the file held are still there, at its
    start, and no other file changes. *)
Lemma loop_append_keeps_prefix app f ow st en :
  truthy ow = false ->
  forall fuel tok oc tr w,
    exists added,
      file_text (default [] (files (snd (_get_activity_logs_loop fuel app f ow
                                           st en tok oc tr w)) !! f))
      = file_text (default [] (files w !! f)) +:+ added
      /\ forall p, p <> f ->
           files (snd (_get_activity_logs_loop fuel app f ow st en
                         tok oc tr w)) !! p
           = files w !! p.
Proof.
  intros Happend. induction fuel as [|fuel IH]; intros tok oc tr w.
  - exists "". cbn. rewrite string_app_nil_r. auto.
  - destruct (list_execute (svc w) (list_request app st en tok))
      as [[results|e] s1] eqn:Hcall.
    + rewrite (loop_answer _ _ _ _ _ _ _ _ _ _ _ _ Hcall).
      destruct (store_page_spec f ow (default [] (items results)) oc tr
                  (with_svc s1 w)) as (w2 & Hst & _ & _ & Hother & Hfile).
      specialize (Hfile Happend). cbn [with_svc files] in Hfile.
      unfold bind. rewrite Hst. cbn [fst snd].
      destruct (String.eqb (default "" (nextPageToken results)) "").
      * exists (file_text (map line_of (rev (default [] (items results))))).
        cbn [ret snd]. split; [|exact Hother].
        rewrite Hfile. apply file_text_append_lines.
      * destruct (IH (Some (default "" (nextPageToken results)))
                    (oc + Z.of_nat (length (default [] (items results))))
                    (tr + Z.of_nat (length (default [] (items results)))) w2)
          as (added & Hfile2 & Hother2).
        exists (file_text (map line_of (rev (default [] (items results))))
                +:+ added).
        split.
        -- rewrite Hfile2, Hfile, file_text_append_lines.
           apply string_app_assoc.
        -- intros p Hp. rewrite Hother2, Hother by exact Hp. reflexivity.
    + rewrite (loop_error _ _ _ _ _ _ _ _ _ _ _ _ Hcall).
      exists "". rewrite string_app_nil_r. auto.
Qed.

Lemma loop_keeps_fetch_calls app f ow st en fuel tok oc tr w :
  fetch_calls (snd (_get_activity_logs_loop fuel app f ow st en tok oc tr w))
  = fetch_calls w.
Proof.
  revert tok oc tr w. induction fuel as [|fuel IH]; intros tok oc tr w.
  - reflexivity.
  - destruct (list_execute (svc w) (list_request app st en tok))
      as [[results|e] s1] eqn:Hcall.
    + rewrite (loop_answer _ _ _ _ _ _ _ _ _ _ _ _ Hcall).
      destruct (store_page_spec f ow (default [] (items results)) oc tr
                  (with_svc s1 w)) as (w2 & Hst & _ & Hfc & _).
      unfold bind. rewrite Hst. cbn [fst snd].
      destruct (String.eqb (default "" (nextPageToken results)) "").
      * cbn [ret snd]. exact Hfc.
      * rewrite IH. exact Hfc.
    + now rewrite (loop_error _ _ _ _ _ _ _ _ _ _ _ _ Hcall).
Qed.

(** In overwrite mode each page with records replaces the file. *)
Lemma store_page_overwrite f ow activities output_count total_records w w' c :
  truthy ow = true ->
  store_page f ow activities output_count total_records w = (Returned c, w') ->
  files w' !! f =
  match activities with
  | [] => files w !! f
  | _ :: _ => Some (map line_of (rev activities))
  end.
Proof.
  intros Hw. destruct activities as [|a rest].
  - simpl. unfold ret. now intros [= _ <-].
  - unfold store_page, bind, open_file. rewrite write_entries_spec, Hw.
    intros [= _ <-]. cbn [files].
    rewrite lookup_alter_eq, lookup_insert_eq. cbn [fmap option_fmap option_map].
    f_equal. now apply (append_lines_complete []).
Qed.

(** Overwrite mode, whole pagination: the file ends up with the last page
    that held records and nothing of the pages before it, while both
    counters count the records of all pages. *)
Lemma loop_overwrite app f ow st en s tok pages s1 tok1 last s2 :
  walks app st en s tok pages s1 tok1 ->
  list_execute s1 (list_request app st en tok1) = (Ok last, s2) ->
  default "" (nextPageToken last) = "" ->
  truthy ow = true ->
  forall fuel oc tr w,
    svc w = s -> (length pages < fuel)%nat ->
    exists w',
      _get_activity_logs_loop fuel app f ow st en tok oc tr w =
        (Returned (JInt (oc + page_total (pages ++ [default [] (items last)])),
                   JInt (tr + page_total (pages ++ [default [] (items last)]))),
         w')
      /\ files w' !! f =
         match last_nonempty (pages ++ [default [] (items last)]) with
         | Some page => Some (map line_of (rev page))
         | None => files w !! f
         end.
Proof.
  induction 1 as [s tok|s tok results s1 t pages s' tok' Hcall Htok Hne Hw IH];
    intros Hlast Hend Hover fuel oc tr w Hs Hfuel;
    (destruct fuel as [|fuel]; [simpl in Hfuel; lia|]); subst s.
  - rewrite (loop_answer _ _ _ _ _ _ _ _ _ _ _ _ Hlast).
    destruct (store_page_spec f ow (default [] (items last)) oc tr
                (with_svc s2 w)) as (w2 & Hst & _).
    unfold bind. rewrite Hst, Hend. cbn [String.eqb fst snd List.app].
    exists w2. rewrite page_total_cons.
    unfold page_total. cbn [concat length]. rewrite !Z.add_0_r.
    split; [reflexivity|].
    rewrite (store_page_overwrite _ _ _ _ _ _ _ _ Hover Hst).
    cbn [last_nonempty]. now destruct (default [] (items last)).
  - rewrite (loop_answer _ _ _ _ _ _ _ _ _ _ _ _ Hcall).
    destruct (store_page_spec f ow (default [] (items results)) oc tr
                (with_svc s1 w)) as (w2 & Hst & Hsvc & _).
    unfold bind. rewrite Hst, Htok. cbn [default from_option id fst snd].
    apply String.eqb_neq in Hne. rewrite Hne.
    destruct (IH Hlast Hend Hover fuel
                (oc + Z.of_nat (length (default [] (items results))))
                (tr + Z.of_nat (length (default [] (items results)))) w2)
      as (w3 & Hrun & Hfile3).
    + now rewrite Hsvc.
    + simpl in Hfuel. lia.
    + exists w3. rewrite Hrun. cbn [List.app].
      rewrite page_total_cons, !Z.add_assoc.
      split; [reflexivity|].
      rewrite Hfile3. cbn [last_nonempty].
      destruct (last_nonempty (pages ++ [default [] (items last)]));
        [reflexivity|].
      rewrite (store_page_overwrite _ _ _ _ _ _ _ _ Hover Hst).
      now destruct (default [] (items results)).
Qed.

(** X2.  Append mode, whole fetch, whatever its outcome: the characters the
    file held are still there, at its start, and no other file changes. *)
Lemma append_mode_keeps_prior_content fuel app f ow st en w :
  truthy ow = false ->
  exists added,
    file_text (default [] (files (snd (_get_activity_logs fuel app f ow
                                         st en w)) !! f))
    = file_text (default [] (files w !! f)) +:+ added
    /\ forall p, p <> f ->
         files (snd (_get_activity_logs fuel app f ow st en w)) !! p
         = files w !! p.
Proof.
  intros Happend. rewrite get_activity_logs_unfold.
  destruct (loop_append_keeps_prefix app f ow st en Happend fuel None 0 0
              (with_fetch_call {| fc_application_name := app;
                                  fc_output_file := f;
                                  fc_overwrite := ow;
                                  fc_start_time := st;
                                  fc_end_time := en |} w))
    as (added & Hfile & Hother).
  exists added. split; [exact Hfile|exact Hother].
Qed.

Lemma get_activity_logs_records_call fuel app f ow st en w :
  fetch_calls (snd (_get_activity_logs fuel app f ow st en w))
  = fetch_calls w ++ [{| fc_application_name := app;
                         fc_output_file := f;
                         fc_overwrite := ow;
                         fc_start_time := st;
                         fc_end_time := en |}].
Proof. rewrite get_activity_logs_unfold. apply loop_keeps_fetch_calls. Qed.

(** ** C4: a [TypeError] of the list call *)

(** C4.  When the list call raises [TypeError] (at the first page, or after
    [pages] earlier answers), [_get_activity_logs] does not raise: it returns
    [(False, False)], which [get_logs] adds to its totals as zero saved and
    zero found, and [get_logs] goes on with the remaining applications. *)
Theorem type_error_reports_zero_and_continues
    fuel self app rest from_date to_date total_saved total_found w
    start pages s1 tok1 s2 :
  effective_from_date self (output_file_of self from_date to_date app)
    from_date w = (Returned start, w) ->
  walks app start to_date (svc w) None pages s1 tok1 ->
  list_execute s1 (list_request app start to_date tok1) = (Err TypeError, s2) ->
  (length pages < fuel)%nat ->
  exists w',
    _get_activity_logs fuel app (output_file_of self from_date to_date app)
      (overwrite self) start to_date w
      = (Returned (JBool false, JBool false), w')
    /\ iadd total_saved (JBool false) = Ok total_saved
    /\ iadd total_found (JBool false) = Ok total_found
    /\ get_logs_loop fuel self (app :: rest) from_date to_date
         total_saved total_found w
       = get_logs_loop fuel self rest start to_date total_saved total_found w'.
Proof.
  intros Hstart Hwalk Herr Hfuel.
  destruct (loop_type_error app (output_file_of self from_date to_date app)
              (overwrite self) start to_date _ _ _ _ _ _ Hwalk Herr fuel 0 0
              (with_fetch_call
                 {| fc_application_name := app;
                    fc_output_file := output_file_of self from_date to_date app;
                    fc_overwrite := overwrite self;
                    fc_start_time := start;
                    fc_end_time := to_date |} w) eq_refl Hfuel)
    as (w' & Hrun & _).
  exists w'. rewrite get_activity_logs_unfold.
  assert (Hz : forall t, iadd t (JBool false) = Ok t)
    by (intros t; unfold iadd; now rewrite Z.add_0_r).
  split; [exact Hrun|]. split; [apply Hz|]. split; [apply Hz|].
  cbn [get_logs_loop]. unfold bind at 1. rewrite Hstart.
  unfold bind at 1. rewrite get_activity_logs_unfold, Hrun.
  cbn [fst snd]. unfold bind, lift. rewrite !Hz. reflexivity.
Qed.

(** ** C6: the scanner *)

Lemma dt_lt_same_kind a b :
  aware a = aware b -> dt_lt a b = Ok (utc a <? utc b).
Proof.
  unfold aware, dt_lt, utc.
  destruct (utcoffset a), (utcoffset b); simpl; congruence.
Qed.

(** With a running [return_date], over lines that parse to datetimes of its
    kind, the scan ends on a datetime that is one of them and that none
    exceeds. *)
Lemma scan_lines_running_max lines ds :
  Forall2 (fun line d => line_datetime_of line = Ok d) lines ds ->
  forall rd,
    Forall (fun d => aware d = aware rd) ds ->
    exists m,
      scan_lines lines (Some rd) = Ok (Some m)
      /\ In m (rd :: ds)
      /\ aware m = aware rd
      /\ Forall (fun d => utc d <= utc m) (rd :: ds).
Proof.
  induction 1 as [|line d lines ds Hline Hrest IH]; intros rd Hkind.
  - exists rd. simpl. repeat split; auto. constructor; [lia|constructor].
  - inversion Hkind as [|? ? Hd Hds]; subst.
    cbn [scan_lines]. unfold rbind at 1. rewrite Hline.
    rewrite dt_lt_same_kind by congruence. unfold rbind at 1.
    destruct (utc rd <? utc d) eqn:Hlt.
    + apply Z.ltb_lt in Hlt.
      destruct (IH d) as (m & Hrun & Hin & Hk & Hmax).
      { eapply Forall_impl; [exact Hds|]. simpl. intros; congruence. }
      exists m. split; [exact Hrun|].
      split; [right; exact Hin|]. split; [congruence|].
      inversion Hmax; subst. constructor; [lia|assumption].
    + apply Z.ltb_ge in Hlt.
      destruct (IH rd Hds) as (m & Hrun & Hin & Hk & Hmax).
      exists m. split; [exact Hrun|].
      split; [destruct Hin as [->|Hin]; [left; reflexivity|right; right; exact Hin]|].
      split; [exact Hk|].
      inversion Hmax as [|? ? Hrd Hall]; subst.
      constructor; [exact Hrd|]. constructor; [lia|exact Hall].
Qed.

(** C6, amended.  When every line of the file parses to a datetime and the
    datetimes are all offset-aware or all naive, [_check_recent_date]
    returns, for a file with lines, one of the parsed datetimes that none of
    them exceeds; for an absent or empty file it returns [None].  The file
    system is left as it was. *)
Theorem check_recent_date_returns_latest path w ds :
  Forall2 (fun line d => line_datetime_of line = Ok d)
    (default [] (files w !! path)) ds ->
  (forall a b, In a ds -> In b ds -> aware a = aware b) ->
  exists r,
    _check_recent_date path w = (Returned r, w)
    /\ match default [] (files w !! path) with
       | [] => r = None
       | _ :: _ =>
           exists m, r = Some m /\ In m ds
                     /\ forall d, In d ds -> dt_lt m d = Ok false
       end.
Proof.
  intros Hparse Hkind. unfold _check_recent_date.
  destruct (files w !! path) as [lines|]; cbn [default from_option id] in *.
  - destruct Hparse as [|line d lines ds Hline Hrest].
    + exists None. split; reflexivity.
    + cbn [scan_lines]. unfold rbind at 1. rewrite Hline.
      destruct (scan_lines_running_max lines ds Hrest d)
        as (m & Hrun & Hin & Hk & Hmax).
      { apply Forall_forall. intros x Hx. apply Hkind; [right|left]; auto.
        now apply list_elem_of_In. }
      rewrite Hrun. exists (Some m). split; [reflexivity|].
      exists m. split; [reflexivity|]. split; [exact Hin|].
      intros x Hx. rewrite dt_lt_same_kind.
      * f_equal. apply Z.ltb_ge.
        rewrite Forall_forall in Hmax. apply Hmax. now apply list_elem_of_In.
      * rewrite Hk. apply Hkind; [left; reflexivity|exact Hx].
  - exists None. split; reflexivity.
Qed.

(** ** C10: lines that do not parse *)

Lemma scan_lines_unparseable lines line e :
  In line lines ->
  line_datetime_of line = Err e ->
  forall return_date, exists e', scan_lines lines return_date = Err e'.
Proof.
  induction lines as [|head rest IH]; intros Hin Herr return_date.
  - destruct Hin.
  - cbn [scan_lines]. unfold rbind at 1.
    destruct (line_datetime_of head) as [d|e0] eqn:Hhead; [|eauto].
    destruct Hin as [->|Hin]; [congruence|].
    destruct return_date as [rd|]; [|now apply IH].
    unfold rbind. destruct (dt_lt rd d) as [older|e1]; [|eauto].
    now apply IH.
Qed.

(** The three ways a line fails before any date is parsed. *)
Lemma line_datetime_of_invalid_json line e :
  json_loads line = Err e -> line_datetime_of line = Err e.
Proof. intros H. unfold line_datetime_of, rbind. now rewrite H. Qed.

Lemma line_datetime_of_no_id line members :
  json_loads line = Ok (JObj members) ->
  dict_get members "id" = None ->
  line_datetime_of line = Err KeyError.
Proof.
  intros H Hid. unfold line_datetime_of, rbind, subscript. now rewrite H, Hid.
Qed.

Lemma line_datetime_of_no_time line members id_members :
  json_loads line = Ok (JObj members) ->
  dict_get members "id" = Some (JObj id_members) ->
  dict_get id_members "time" = None ->
  line_datetime_of line = Err KeyError.
Proof.
  intros H Hid Htime. unfold line_datetime_of, rbind, subscript.
  now rewrite H, Hid, Htime.
Qed.

(** C10.  When some line of an existing file is not valid JSON, or is a
    JSON object without [id] or without [id.time], or carries a time that
    does not parse, [_check_recent_date] raises: it returns neither a
    timestamp nor [None]. *)
Theorem check_recent_date_unparseable_line_raises path w lines line e :
  files w !! path = Some lines ->
  In line lines ->
  line_datetime_of line = Err e ->
  exists e', _check_recent_date path w = (Raised e', w).
Proof.
  intros Hfile Hin Herr. unfold _check_recent_date. rewrite Hfile.
  destruct (scan_lines_unparseable lines line e Hin Herr None) as (e' & Hscan).
  exists e'. now rewrite Hscan.
Qed.

(** ** C2: where the start time of an application comes from *)

(** In update mode the start time read for an application is also the
    [from_date] of the applications after it. *)
Lemma update_start_carries_over
    fuel self app rest from_date to_date total_saved total_found w recent :
  truthy (update self) = true ->
  _check_recent_date (output_file_of self from_date to_date app) w
    = (Returned recent, w) ->
  get_logs_loop fuel self (app :: rest) from_date to_date
    total_saved total_found w
  = bind (_get_activity_logs fuel app
            (output_file_of self from_date to_date app) (overwrite self)
            (recent_or recent from_date) to_date)
      (fun counts =>
         bind (lift (iadd total_saved (fst counts)))
           (fun total_saved =>
              bind (lift (iadd total_found (snd counts)))
                (fun total_found =>
                   get_logs_loop fuel self rest (recent_or recent from_date)
                     to_date total_saved total_found))) w.
Proof.
  intros Hupd Hrecent. cbn [get_logs_loop].
  unfold bind at 1. unfold effective_from_date. rewrite Hupd.
  unfold bind at 1. rewrite Hrecent. reflexivity.
Qed.

(** ** C8: merging the configuration file *)

Lemma merge_key_same args key value :
  merge_key args (key, value) !! key = Some (resolved (args !! key) value).
Proof.
  unfold merge_key, resolved.
  destruct (args !! key) as [current|] eqn:Hcur.
  - destruct (truthy_json current); [exact Hcur|apply lookup_insert_eq].
  - apply lookup_insert_eq.
Qed.

Lemma merge_key_other args k v key :
  k <> key -> merge_key args (k, v) !! key = args !! key.
Proof.
  intros Hne. unfold merge_key.
  destruct (args !! k) as [current|].
  - destruct (truthy_json current); [reflexivity|now apply lookup_insert_ne].
  - now apply lookup_insert_ne.
Qed.

Lemma foldl_merge_key_other (items : list (string * json)) args key :
  ~ In key (map fst items) ->
  foldl merge_key args items !! key = args !! key.
Proof.
  revert args. induction items as [|[k v] rest IH]; intros args Hnot.
  - reflexivity.
  - simpl in *. rewrite IH by tauto. apply merge_key_other. tauto.
Qed.

Lemma foldl_merge_key_member (items : list (string * json)) args key value :
  List.NoDup (map fst items) ->
  In (key, value) items ->
  foldl merge_key args items !! key = Some (resolved (args !! key) value).
Proof.
  revert args. induction items as [|[k v] rest IH]; intros args Hnd Hin.
  - destruct Hin.
  - simpl in Hnd. inversion Hnd as [|? ? Hfresh Hrest]; subst.
    destruct Hin as [[= -> ->]|Hin]; cbn [foldl].
    + rewrite foldl_merge_key_other by exact Hfresh. apply merge_key_same.
    + rewrite IH by assumption.
      rewrite merge_key_other; [reflexivity|].
      intros ->. apply Hfresh. apply (in_map fst) in Hin. exact Hin.
Qed.

Lemma merge_config_member (config args : gmap string json) key value :
  config !! key = Some value ->
  merge_config config args !! key = Some (resolved (args !! key) value).
Proof.
  intros Hcfg. unfold merge_config.
  apply foldl_merge_key_member.
  - apply NoDup_ListNoDup. apply NoDup_fst_map_to_list.
  - apply list_elem_of_In. now apply elem_of_map_to_list.
Qed.

Lemma merge_config_other (config args : gmap string json) key :
  config !! key = None ->
  merge_config config args !! key = args !! key.
Proof.
  intros Hcfg. unfold merge_config.
  apply foldl_merge_key_other.
  intros Hin. apply list_elem_of_In in Hin.
  apply list_elem_of_fmap in Hin as ([k v] & -> & Hkv).
  apply elem_of_map_to_list in Hkv. simpl in Hcfg. congruence.
Qed.

(** X26.  The merge as it reads the namespace of the parser, defaults
    included: for a key of the configuration file, the merged namespace
    holds the configuration value when the namespace lacks the key or holds
    a falsy value for it ([None], [False], an empty string), and keeps the
    value of the namespace otherwise. *)
Theorem config_fills_unset_arguments (config args : gmap string json) key value :
  config !! key = Some value ->
  (args !! key = None -> merge_config config args !! key = Some value)
  /\ (forall cli_value,
        args !! key = Some cli_value -> truthy_json cli_value = false ->
        merge_config config args !! key = Some value)
  /\ (forall cli_value,
        args !! key = Some cli_value -> truthy_json cli_value = true ->
        merge_config config args !! key = Some cli_value).
Proof.
  intros Hcfg. rewrite (merge_config_member _ _ _ _ Hcfg). unfold resolved.
  split; [|split].
  - now intros ->.
  - intros cli_value -> Hfalsy. now rewrite Hfalsy.
  - intros cli_value -> Htruthy. now rewrite Htruthy.
Qed.

(** X16.  An option whose parser default is truthy counts as given: without
    [--apps] the namespace holds the default list, and an [apps] key of the
    configuration file is not used. *)
Lemma apps_default_is_kept argv (config : gmap string json) value :
  cli_apps argv = None ->
  config !! "apps" = Some value ->
  merge_config config (parse_args argv) !! "apps"
  = Some (JStr (String.concat "," DEFAULT_APPLICATIONS)).
Proof.
  intros Hcli Hcfg. rewrite (merge_config_member _ _ _ _ Hcfg).
  replace (parse_args argv !! "apps")
    with (Some (JStr (default (String.concat "," DEFAULT_APPLICATIONS)
                        (cli_apps argv)))) by reflexivity.
  now rewrite Hcli.
Qed.

(** ** C9: the run without the daily split *)

Lemma merge_config_empty (args : gmap string json) : merge_config ∅ args = args.
Proof. unfold merge_config. now rewrite map_to_list_empty. Qed.

Lemma load_config_parse_args config_files argv :
  load_config config_files (parse_args argv) =
  Ok (merge_config (config_of config_files argv) (parse_args argv)).
Proof.
  unfold load_config, config_of, getattr.
  replace (parse_args argv !! "config")
    with (Some (JStr (default "config.json" (cli_config argv))))
    by reflexivity.
  cbn [rbind].
  destruct (truthy_json (JStr (default "config.json" (cli_config argv)))).
  - destruct (config_files !! default "config.json" (cli_config argv));
      cbn [default from_option id]; [reflexivity|].
    now rewrite merge_config_empty.
  - now rewrite merge_config_empty.
Qed.

(** The parser defines no [from_date]. *)
Lemma parse_args_no_from_date argv : parse_args argv !! "from_date" = None.
Proof. reflexivity. Qed.

(** C9, amended.  When neither [--daily] is given nor the configuration file
    sets a truthy [daily], and the configuration file has no [from_date]
    key, the run ends with an exception and without any effect: no list
    call, no file written.  The parser itself defines no [from_date], and
    once the client object is built the exception is the [AttributeError]
    of [args.from_date]. *)
Theorem non_daily_run_needs_from_date fuel argv config_files w :
  cli_daily argv = false ->
  truthy_json (default JNull (config_of config_files argv !! "daily")) = false ->
  config_of config_files argv !! "from_date" = None ->
  exists e,
    main fuel argv config_files w = (Raised e, w)
    /\ parse_args argv !! "from_date" = None
    /\ (forall args apps_arg apps google,
          load_config config_files (parse_args argv) = Ok args ->
          getattr args "apps" = Ok apps_arg ->
          convert_apps apps_arg = Ok apps ->
          Google_init args apps = Ok google ->
          e = AttributeError).
Proof.
  intros Hcli Hdaily Hfrom.
  set (args := merge_config (config_of config_files argv) (parse_args argv)).
  assert (Hnone : args !! "from_date" = None).
  { unfold args. rewrite merge_config_other by exact Hfrom.
    apply parse_args_no_from_date. }
  assert (Hd : exists d, args !! "daily" = Some d /\ truthy_json d = false).
  { unfold args.
    destruct (config_of config_files argv !! "daily") as [v|] eqn:Hv.
    - exists v. split; [|exact Hdaily].
      rewrite (merge_config_member _ _ _ _ Hv).
      replace (parse_args argv !! "daily") with (Some (JBool (cli_daily argv)))
        by reflexivity.
      now rewrite Hcli.
    - exists (JBool false). split; [|reflexivity].
      rewrite merge_config_other by exact Hv.
      replace (parse_args argv !! "daily") with (Some (JBool (cli_daily argv)))
        by reflexivity.
      now rewrite Hcli. }
  destruct Hd as (d & Hdl & Hfalsy).
  unfold main. rewrite load_config_parse_args. fold args.
  unfold bind at 1. cbn [lift ret].
  destruct (getattr args "apps") as [apps_arg|e1] eqn:Happs.
  2:{ exists e1. unfold bind, lift, raise. split; [reflexivity|].
      split; [reflexivity|]. intros ? ? ? ? [= <-]. congruence. }
  unfold bind at 1. cbn [lift ret].
  destruct (convert_apps apps_arg) as [apps|e2] eqn:Hconv.
  2:{ exists e2. unfold bind, lift, raise. split; [reflexivity|].
      split; [reflexivity|]. intros ? ? ? ? [= <-]. congruence. }
  unfold bind at 1. cbn [lift ret].
  destruct (Google_init args apps) as [google|e3] eqn:Hinit.
  2:{ exists e3. unfold bind, lift, raise. split; [reflexivity|].
      split; [reflexivity|]. intros ? ? ? ? [= <-]. congruence. }
  exists AttributeError. unfold bind, lift, ret, raise, getattr.
  rewrite Hdl, Hfalsy, Hnone. auto.
Qed.

(** ** C5: the daily split *)

(** [daily_loop] calls [get_logs] on the windows of [daily_windows], in
    order, and ends as [daily_windows] says. *)
Lemma daily_loop_calls_windows n fuel google start_time end_time w :
  daily_loop fuel n google start_time end_time w =
  call_windows fuel google (fst (daily_windows n start_time end_time))
    (snd (daily_windows n start_time end_time)) w.
Proof.
  revert start_time w. induction n as [|n IH]; intros start_time w.
  - reflexivity.
  - cbn [daily_loop daily_windows]. unfold bind at 1.
    destruct (dt_lt start_time end_time) as [[|]|e]; try reflexivity.
    cbn [lift ret]. unfold bind at 1.
    destruct (dt_gt (get_end_of_the_day start_time) end_time) as [late|e];
      try reflexivity.
    cbn [lift ret].
    destruct (add_days start_time 1) as [next|e].
    + destruct (daily_windows n (get_start_of_the_day next) end_time)
        as [ws x] eqn:Hws.
      cbn [fst snd call_windows]. unfold bind.
      destruct (get_logs fuel google _ _ w) as [[totals|e|] w1];
        try reflexivity.
      cbn [lift ret]. rewrite IH, Hws. reflexivity.
    + cbn [fst snd call_windows finish]. unfold bind.
      destruct (get_logs fuel google _ _ w) as [[totals|e'|] w1]; reflexivity.
Qed.

Lemma dt_lt_naive o1 u1 o2 u2 :
  dt_lt {| toordinal := o1; day_micros := u1; utcoffset := None |}
        {| toordinal := o2; day_micros := u2; utcoffset := None |}
  = Ok (o1 * DAY_MICROS + u1 <? o2 * DAY_MICROS + u2).
Proof. unfold dt_lt, instant. simpl. now rewrite !Z.sub_0_r. Qed.

Lemma add_days_in_range o u off :
  1 <= o + 1 <= MAXORDINAL ->
  add_days {| toordinal := o; day_micros := u; utcoffset := off |} 1
  = Ok {| toordinal := o + 1; day_micros := u; utcoffset := off |}.
Proof.
  intros [Hlo Hhi]. unfold add_days. cbn [toordinal day_micros utcoffset].
  apply Z.leb_le in Hlo. apply Z.leb_le in Hhi. now rewrite Hlo, Hhi.
Qed.

Lemma add_days_overflow o u off :
  MAXORDINAL < o + 1 ->
  add_days {| toordinal := o; day_micros := u; utcoffset := off |} 1
  = Err OverflowError.
Proof.
  intros Hhi. unfold add_days. cbn [toordinal day_micros utcoffset].
  apply Z.leb_gt in Hhi. rewrite Hhi. now rewrite andb_false_r.
Qed.

(** One iteration of the loop on a naive [start_time] that lies before
    [end_time] and whose day is not the last of the calendar. *)
Lemma daily_windows_step n o u o' u' :
  o * DAY_MICROS + u < o' * DAY_MICROS + u' ->
  1 <= o + 1 <= MAXORDINAL ->
  daily_windows (S n)
    {| toordinal := o; day_micros := u; utcoffset := None |}
    {| toordinal := o'; day_micros := u'; utcoffset := None |}
  = let '(ws, x) :=
      daily_windows n
        {| toordinal := o + 1; day_micros := time_min; utcoffset := None |}
        {| toordinal := o'; day_micros := u'; utcoffset := None |} in
    (({| toordinal := o; day_micros := u; utcoffset := None |},
      if o' * DAY_MICROS + u' <? o * DAY_MICROS + time_max
      then {| toordinal := o'; day_micros := u'; utcoffset := None |}
      else {| toordinal := o; day_micros := time_max; utcoffset := None |})
     :: ws, x).
Proof.
  intros Hlt Hrange. cbn [daily_windows].
  rewrite dt_lt_naive. apply Z.ltb_lt in Hlt. rewrite Hlt.
  unfold dt_gt, get_end_of_the_day, combine. cbn [toordinal].
  rewrite dt_lt_naive, add_days_in_range by exact Hrange.
  reflexivity.
Qed.

Lemma daily_windows_last_day n o u o' u' :
  o * DAY_MICROS + u < o' * DAY_MICROS + u' ->
  MAXORDINAL < o + 1 ->
  daily_windows (S n)
    {| toordinal := o; day_micros := u; utcoffset := None |}
    {| toordinal := o'; day_micros := u'; utcoffset := None |}
  = ([({| toordinal := o; day_micros := u; utcoffset := None |},
       if o' * DAY_MICROS + u' <? o * DAY_MICROS + time_max
       then {| toordinal := o'; day_micros := u'; utcoffset := None |}
       else {| toordinal := o; day_micros := time_max; utcoffset := None |})],
     ExitRaised OverflowError).
Proof.
  intros Hlt Hrange. cbn [daily_windows].
  rewrite dt_lt_naive. apply Z.ltb_lt in Hlt. rewrite Hlt.
  unfold dt_gt, get_end_of_the_day, combine. cbn [toordinal].
  rewrite dt_lt_naive, add_days_overflow by exact Hrange.
  reflexivity.
Qed.

Lemma daily_windows_stop n o u o' u' :
  o' * DAY_MICROS + u' <= o * DAY_MICROS + u ->
  daily_windows (S n)
    {| toordinal := o; day_micros := u; utcoffset := None |}
    {| toordinal := o'; day_micros := u'; utcoffset := None |}
  = ([], ExitDone).
Proof.
  intros Hge. cbn [daily_windows].
  rewrite dt_lt_naive. apply Z.ltb_ge in Hge. now rewrite Hge.
Qed.

(** The bound that [main] gives the loop is never reached: every run of
    the loop ends by its own test or by an exception. *)
Lemma daily_windows_naive_ends n o u o' u' :
  0 <= u ->
  u' < DAY_MICROS ->
  (Z.to_nat (o' + 1 - o) + 1 <= n)%nat ->
  snd (daily_windows n
         {| toordinal := o; day_micros := u; utcoffset := None |}
         {| toordinal := o'; day_micros := u'; utcoffset := None |})
  <> ExitFuel.
Proof.
  revert o u. induction n as [|n IH]; intros o u Hu Hu' Hn; [lia|].
  cbn [daily_windows]. rewrite dt_lt_naive.
  destruct (Z.ltb_spec (o * DAY_MICROS + u) (o' * DAY_MICROS + u'));
    [|discriminate].
  unfold dt_gt, get_end_of_the_day, combine. cbn [toordinal].
  rewrite dt_lt_naive.
  destruct (Z.leb_spec (o + 1) MAXORDINAL) as [Hin|Hout].
  - destruct (Z.leb_spec 1 (o + 1)) as [Hlo|Hlo].
    + rewrite add_days_in_range by lia.
      unfold get_start_of_the_day, combine. cbn [toordinal].
      destruct (daily_windows n _ _) as [ws x] eqn:Hws. cbn [snd].
      specialize (IH (o + 1) time_min). rewrite Hws in IH. apply IH.
      * unfold time_min. lia.
      * exact Hu'.
      * assert (o <= o') by (unfold DAY_MICROS in *; lia). lia.
    + unfold add_days. cbn [toordinal].
      apply Z.leb_gt in Hlo. rewrite Hlo. discriminate.
  - rewrite add_days_overflow by lia. discriminate.
Qed.

(** X25.  The daily loop always ends: with the bound that [main] gives it, it
    stops by its own test or by an exception, never for lack of
    iterations. *)
Lemma daily_bound_suffices start_time end_time :
  0 <= day_micros start_time ->
  day_micros end_time < DAY_MICROS ->
  snd (daily_windows (daily_bound start_time end_time) start_time end_time)
  <> ExitFuel.
Proof.
  intros Hu Hu'. unfold daily_bound.
  destruct start_time as [o u [off|]], end_time as [o' u' [off'|]];
    cbn [toordinal day_micros] in *.
  - rewrite Nat.add_comm. cbn [Nat.add daily_windows].
    unfold dt_lt at 1. cbn [utcoffset].
    destruct (_ <? _); [|discriminate].
    unfold dt_gt, dt_lt. cbn. discriminate.
  - rewrite Nat.add_comm. cbn. discriminate.
  - rewrite Nat.add_comm. cbn. discriminate.
  - apply daily_windows_naive_ends; [exact Hu|exact Hu'|lia].
Qed.

(** C5, amended.  For naive start and end times whose range touches three
    calendar days, the loop makes exactly three calls of [get_logs].  The
    first window starts at the start time; every window but the last ends
    at the last microsecond of its day ([strftime] sends 23:59:59) and the
    next one starts at midnight of the following day, one microsecond
    later, so windows do not overlap and do not share an end point; the last
    window ends at its end of day clamped to the overall end time.  After
    the third call the loop ends, with [OverflowError] when the third day is
    the last day of the calendar. *)
Theorem three_calendar_days_three_windows
    fuel n google start_time end_time w :
  utcoffset start_time = None ->
  utcoffset end_time = None ->
  valid_datetime start_time ->
  valid_datetime end_time ->
  calendar_days start_time end_time = 3 ->
  (4 <= n)%nat ->
  exists last x,
    daily_windows n start_time end_time
    = ([(start_time, get_end_of_the_day start_time);
        (day_start start_time 1, day_end start_time 1);
        (day_start start_time 2, last)], x)
    /\ daily_loop fuel n google start_time end_time w
       = bind (get_logs fuel google (PStr (strftime start_time))
                 (PStr (strftime (get_end_of_the_day start_time))))
           (fun _ =>
            bind (get_logs fuel google
                    (PStr (strftime (day_start start_time 1)))
                    (PStr (strftime (day_end start_time 1))))
              (fun _ =>
               bind (get_logs fuel google
                       (PStr (strftime (day_start start_time 2)))
                       (PStr (strftime last)))
                 (fun _ => finish x))) w
    /\ x = (if toordinal start_time + 3 <=? MAXORDINAL
            then ExitDone else ExitRaised OverflowError)
    /\ last = (if day_micros end_time =? 0
               then day_end start_time 2 else end_time)
    /\ utc start_time <= utc (get_end_of_the_day start_time)
    /\ utc (get_end_of_the_day start_time) + 1 = utc (day_start start_time 1)
    /\ utc (day_end start_time 1) + 1 = utc (day_start start_time 2)
    /\ utc (day_start start_time 1) < utc (day_end start_time 1)
    /\ utc (day_start start_time 2) < utc last
    /\ utc last <= utc end_time.
Proof.
  intros Hs He Vs Ve Hdays Hn.
  destruct start_time as [o u off], end_time as [o' u' off'].
  cbn [utcoffset] in Hs, He. subst off off'.
  unfold valid_datetime, calendar_days in *.
  cbn [toordinal day_micros] in *.
  do 4 (destruct n as [|n]; [lia|]).
  assert (HD : DAY_MICROS = 86400000000) by reflexivity.
  assert (HM : MAXORDINAL = 3652059) by reflexivity.
  assert (Hmax : time_max = 86399999999) by reflexivity.
  assert (Hmin : time_min = 0) by reflexivity.
  set (s := {| toordinal := o; day_micros := u; utcoffset := None |}).
  set (e := {| toordinal := o'; day_micros := u'; utcoffset := None |}).
  set (last := if u' =? 0 then day_end s 2 else e).
  set (x := if o + 3 <=? MAXORDINAL then ExitDone else ExitRaised OverflowError).
  assert (Hw : daily_windows (S (S (S (S n)))) s e
               = ([(s, get_end_of_the_day s);
                   (day_start s 1, day_end s 1);
                   (day_start s 2, last)], x)).
  { unfold s, e, last, x, get_end_of_the_day, combine, day_start, day_end.
    cbn [toordinal].
    destruct (Z.eqb_spec u' 0) as [Hu|Hu].
    - assert (Ho : o' = o + 3) by lia. subst o' u'.
      rewrite daily_windows_step by (rewrite ?HD, ?HM; lia).
      rewrite daily_windows_step by (rewrite ?HD, ?HM, ?Hmin; lia).
      rewrite daily_windows_step by (rewrite ?HD, ?HM, ?Hmin; lia).
      rewrite daily_windows_stop by (rewrite ?HD, ?HM, ?Hmin; lia).
      repeat match goal with
             | |- context [?a <? ?b] =>
                 destruct (Z.ltb_spec a b);
                 [exfalso; rewrite ?HD, ?Hmax, ?Hmin in *; lia|]
             end.
      replace (o + 3 <=? MAXORDINAL) with true
        by (symmetry; apply Z.leb_le; lia).
      replace (o + 1 + 1) with (o + 2) by lia.
      reflexivity.
    - assert (Ho : o' = o + 2) by lia. subst o'.
      rewrite daily_windows_step by (rewrite ?HD, ?HM; lia).
      rewrite daily_windows_step by (rewrite ?HD, ?HM, ?Hmin; lia).
      replace (o + 1 + 1) with (o + 2) by lia.
      assert (Hlast :
        (if (o + 2) * DAY_MICROS + u' <? (o + 2) * DAY_MICROS + time_max
         then {| toordinal := o + 2; day_micros := u'; utcoffset := None |}
         else {| toordinal := o + 2; day_micros := time_max; utcoffset := None |})
        = {| toordinal := o + 2; day_micros := u'; utcoffset := None |}).
      { destruct (Z.ltb_spec ((o + 2) * DAY_MICROS + u')
                             ((o + 2) * DAY_MICROS + time_max)); [reflexivity|].
        f_equal. rewrite ?HD, ?Hmax in *. lia. }
      destruct (Z.leb_spec (o + 3) MAXORDINAL) as [Hin|Hout].
      + rewrite daily_windows_step by (rewrite ?HD, ?HM, ?Hmin in *; lia).
        replace (o + 2 + 1) with (o + 3) by lia.
        rewrite daily_windows_stop by (rewrite ?HD, ?HM, ?Hmin; lia).
        rewrite Hlast.
        repeat match goal with
               | |- context [?a <? ?b] =>
                   destruct (Z.ltb_spec a b);
                   [exfalso; rewrite ?HD, ?Hmax, ?Hmin in *; lia|]
               end.
        reflexivity.
      + rewrite daily_windows_last_day by (rewrite ?HD, ?HM, ?Hmin in *; lia).
        rewrite Hlast.
        repeat match goal with
               | |- context [?a <? ?b] =>
                   destruct (Z.ltb_spec a b);
                   [exfalso; rewrite ?HD, ?Hmax, ?Hmin in *; lia|]
               end.
        reflexivity. }
  exists last, x. rewrite daily_loop_calls_windows, Hw.
  split; [reflexivity|]. split; [reflexivity|].
  split; [reflexivity|]. split; [reflexivity|].
  unfold last, s, e, utc, instant, get_end_of_the_day, combine, day_start, day_end.
  cbn [toordinal day_micros utcoffset default from_option id].
  destruct (Z.eqb_spec u' 0);
    cbn [toordinal day_micros utcoffset default from_option id];
    rewrite ?HD, ?Hmax, ?Hmin in *; repeat split; lia.
Qed.

End Proofs.

(** ** Runs on concrete inputs *)

(** *** C1 and C3: what each mode leaves in the file *)

(** Append mode over a file of one complete line, pages [[a]] then [[b]]:
    the old line, then the two records. *)
Lemma append_mode_collects_example :
  exists w',
    _get_activity_logs 2 "drive" "out/drive_logs.json" (PJ (JBool false))
      PNone PNone Demo.two_pages_after_old_line
    = (Returned (JInt 2, JInt 2), w')
    /\ default [] (files w' !! "out/drive_logs.json")
       = ["old" +:+ nl; line_of Demo.rec_a; line_of Demo.rec_b]
    /\ (forall p, p <> "out/drive_logs.json" ->
          files w' !! p = files Demo.two_pages_after_old_line !! p).
Proof.
  apply (append_mode_collects 2 "drive" "out/drive_logs.json"
           (PJ (JBool false)) PNone PNone Demo.two_pages_after_old_line
           [[Demo.rec_a]] [Demo.page [Demo.rec_b] None] (Some "t2")
           {| items := Some [Demo.rec_b]; nextPageToken := None |} []).
  - eapply walks_cons
      with (results := {| items := Some [Demo.rec_a];
                          nextPageToken := Some "t2" |}) (t := "t2");
      [reflexivity|reflexivity|discriminate|constructor].
  - reflexivity.
  - reflexivity.
  - reflexivity.
  - reflexivity.
  - simpl. lia.
Defined.

(** C1.  Overwrite mode, two pages [[a; b]] and [[c]]: the call reports
    three records saved of three found, yet the file holds the record of the
    last page only, not the three lines of the two reversed pages (append
    mode does keep them: [append_mode_collects]). *)
Theorem overwrite_keeps_only_last_page :
  exists w',
    _get_activity_logs 2 "drive" "out/drive_logs.json" (PJ (JBool true))
      PNone PNone Demo.two_pages = (Returned (JInt 3, JInt 3), w')
    /\ files w' !! "out/drive_logs.json" = Some [line_of Demo.rec_c]
    /\ page_lines [[Demo.rec_a; Demo.rec_b]; [Demo.rec_c]]
       = [line_of Demo.rec_b; line_of Demo.rec_a; line_of Demo.rec_c].
Proof.
  eexists. split; [vm_compute; reflexivity|]. split; reflexivity.
Qed.

(** C3.  Overwrite mode, two pages [[a]] and [[b]] over a file that held one
    line: the file is opened for writing, hence truncated, twice, the second
    time after the first page was written, and the first page is lost. *)
Theorem overwrite_truncates_at_every_page :
  exists w',
    files Demo.two_pages_over_old !! "out/drive_logs.json" = Some ["old"]
    /\ _get_activity_logs 2 "drive" "out/drive_logs.json" (PJ (JBool true))
      PNone PNone Demo.two_pages_over_old = (Returned (JInt 2, JInt 2), w')
    /\ fs_events w' =
       [EvOpen "out/drive_logs.json" ModeW;
        EvWrite "out/drive_logs.json" (line_of Demo.rec_a);
        EvOpen "out/drive_logs.json" ModeW;
        EvWrite "out/drive_logs.json" (line_of Demo.rec_b)]
    /\ files w' !! "out/drive_logs.json" = Some [line_of Demo.rec_b].
Proof.
  eexists. split; [reflexivity|].
  split; [vm_compute; reflexivity|]. split; reflexivity.
Qed.

(** *** C2 and C7: update mode with more than one application *)

(** C2.  Update mode, applications [admin] then [drive], configured start
    [2024-01-01T00:00:00Z].  The file of [admin] holds three records, the
    latest at 12:00; [drive] has no file.  The fetch for [drive] is started
    from the 12:00 timestamp read for [admin], not from the configured
    start: the assignment to [from_date] outlives the iteration. *)
Theorem update_start_leaks_to_next_application :
  exists totals w',
    get_logs 1 (Demo.google true false ["admin"; "drive"])
      (PStr "2024-01-01T00:00:00Z") (PStr "2024-01-02T00:00:00Z")
      Demo.admin_on_disk = (Returned totals, w')
    /\ _check_recent_date
         (output_file_of (Demo.google true false ["admin"; "drive"])
            (PStr "2024-01-01T00:00:00Z") (PStr "2024-01-02T00:00:00Z") "admin")
         Demo.admin_on_disk = (Returned (Some Demo.at_noon), Demo.admin_on_disk)
    /\ files Demo.admin_on_disk
         !! output_file_of (Demo.google true false ["admin"; "drive"])
              (PStr "2024-01-01T00:00:00Z") (PStr "2024-01-02T00:00:00Z") "drive"
       = None
    /\ map fc_application_name (fetch_calls w') = ["admin"; "drive"]
    /\ map fc_start_time (fetch_calls w')
       = [PDt Demo.at_noon; PDt Demo.at_noon]
    /\ PDt Demo.at_noon <> PStr "2024-01-01T00:00:00Z".
Proof.
  eexists. eexists. split; [vm_compute; reflexivity|].
  split; [reflexivity|].
  split; [reflexivity|]. split; [reflexivity|]. split; [reflexivity|].
  discriminate.
Qed.

(** C7.  Update mode, [get_logs("2024-01-01T00:00:00Z")] for [login] then
    [token].  The file of [login] holds one record, of 10:00.  The records
    of [token] are not written under the folder of the window passed to
    [get_logs]: the folder is rebuilt from the reassigned [from_date], and
    the file named after the window is never created. *)
Theorem update_moves_next_application_file :
  exists totals w',
    get_logs 1 (Demo.google true false ["login"; "token"])
      (PStr "2024-01-01T00:00:00Z") PNone Demo.login_on_disk
      = (Returned totals, w')
    /\ map (output_file_of (Demo.google true false ["login"; "token"])
              (PStr "2024-01-01T00:00:00Z") PNone) ["login"; "token"]
       = ["out/2024-01-01T00:00:00Z_None/login_logs.json";
          "out/2024-01-01T00:00:00Z_None/token_logs.json"]
    /\ map fc_output_file (fetch_calls w')
       = ["out/2024-01-01T00:00:00Z_None/login_logs.json";
          "out/2024-01-01 10:00:00+00:00_None/token_logs.json"]
    /\ files w' !! "out/2024-01-01T00:00:00Z_None/token_logs.json" = None
    /\ files w' !! "out/2024-01-01 10:00:00+00:00_None/token_logs.json"
       = Some [line_of Demo.rec_b].
Proof.
  eexists. eexists. split; [vm_compute; reflexivity|].
  repeat split; reflexivity.
Qed.

(** *** C4: a [TypeError] at the first list call *)

(** A run with two applications: the list call for [admin] raises
    [TypeError], the one for [drive] answers one page. *)
Lemma type_error_reports_zero_and_continues_witness :
  exists w',
    _get_activity_logs 2 "admin" "out/None_None/admin_logs.json"
      (PJ (JBool false)) PNone PNone
      (Demo.start_world ∅ [Err TypeError; Demo.page [Demo.rec_a] None])
      = (Returned (JBool false, JBool false), w')
    /\ iadd 0 (JBool false) = Ok 0
    /\ iadd 0 (JBool false) = Ok 0
    /\ get_logs_loop 2 (Demo.google false false ["admin"; "drive"])
         ["admin"; "drive"] PNone PNone 0 0
         (Demo.start_world ∅ [Err TypeError; Demo.page [Demo.rec_a] None])
       = get_logs_loop 2 (Demo.google false false ["admin"; "drive"])
           ["drive"] PNone PNone 0 0 w'.
Proof.
  apply (type_error_reports_zero_and_continues 2
           (Demo.google false false ["admin"; "drive"]) "admin" ["drive"]
           PNone PNone 0 0
           (Demo.start_world ∅ [Err TypeError; Demo.page [Demo.rec_a] None])
           PNone [] [Err TypeError; Demo.page [Demo.rec_a] None] None
           [Demo.page [Demo.rec_a] None]).
  - reflexivity.
  - constructor.
  - reflexivity.
  - simpl. lia.
Defined.

(** *** C5: three days *)

(** From 2024-01-01 00:00:00 to 2024-01-03 12:00:00: three windows, the
    last one ending at the end time. *)
Lemma three_calendar_days_three_windows_witness :
  daily_windows 4 Demo.jan_1 Demo.jan_3_noon
  = ([(Demo.jan_1, day_end Demo.jan_1 0);
      (day_start Demo.jan_1 1, day_end Demo.jan_1 1);
      (day_start Demo.jan_1 2, Demo.jan_3_noon)], ExitDone).
Proof.
  destruct (three_calendar_days_three_windows 1 4
              (Demo.google false false []) Demo.jan_1 Demo.jan_3_noon
              Demo.one_record)
    as (last & x & Hw & _ & Hx & Hlast & _).
  - reflexivity.
  - reflexivity.
  - unfold valid_datetime. simpl. unfold MAXORDINAL, DAY_MICROS. lia.
  - unfold valid_datetime. simpl. unfold MAXORDINAL, DAY_MICROS. lia.
  - reflexivity.
  - lia.
  - rewrite Hw, Hx, Hlast. reflexivity.
Defined.

(** C5 as stated fails.  Over the same three days the first window ends at
    23:59:59 and the second starts at 00:00:00 of the next day: a window's
    end is not the next window's start. *)
Lemma daily_windows_do_not_meet :
  calendar_days Demo.jan_1 Demo.jan_3_noon = 3
  /\ ~ windows_meet (fst (daily_windows 4 Demo.jan_1 Demo.jan_3_noon))
  /\ map (fun win => (strftime (fst win), strftime (snd win)))
         (fst (daily_windows 4 Demo.jan_1 Demo.jan_3_noon))
     = [("2024-01-01T00:00:00Z", "2024-01-01T23:59:59Z");
        ("2024-01-02T00:00:00Z", "2024-01-02T23:59:59Z");
        ("2024-01-03T00:00:00Z", "2024-01-03T12:00:00Z")].
Proof.
  split; [reflexivity|]. split; [|reflexivity].
  intros Hmeet. specialize (Hmeet 0%nat _ _ eq_refl eq_refl). discriminate Hmeet.
Qed.

(** Seventy-two hours from noon touch four calendar days: four windows. *)
Lemma seventy_two_hours_from_noon :
  calendar_days
    {| toordinal := 738886; day_micros := 43200000000; utcoffset := None |}
    {| toordinal := 738889; day_micros := 43200000000; utcoffset := None |}
  = 4
  /\ length (fst (daily_windows 6
       {| toordinal := 738886; day_micros := 43200000000; utcoffset := None |}
       {| toordinal := 738889; day_micros := 43200000000; utcoffset := None |}))
     = 4%nat.
Proof. split; reflexivity. Qed.

(** *** C6 and C10: files for the scanner *)

(** The file of three records: the 12:00 timestamp of the middle line is
    returned. *)
Lemma check_recent_date_returns_latest_witness :
  exists r,
    _check_recent_date "out/admin_logs.json" Demo.three_records
      = (Returned r, Demo.three_records)
    /\ exists m, r = Some m
         /\ In m [Demo.at_ten; Demo.at_noon; Demo.at_eleven]
         /\ forall d, In d [Demo.at_ten; Demo.at_noon; Demo.at_eleven] ->
                      dt_lt m d = Ok false.
Proof.
  apply (check_recent_date_returns_latest "out/admin_logs.json"
           Demo.three_records [Demo.at_ten; Demo.at_noon; Demo.at_eleven]).
  - repeat constructor.
  - intros a b Ha Hb. simpl in Ha, Hb.
    destruct Ha as [<-|[<-|[<-|[]]]]; destruct Hb as [<-|[<-|[<-|[]]]];
      reflexivity.
Defined.

(** C6 as stated fails.  Both lines of the file have a parseable [id.time],
    one with a zone and one without: comparing the two raises [TypeError],
    and no timestamp is returned. *)
Lemma check_recent_date_mixed_kinds_raises :
  Forall2 (fun line d => line_datetime_of line = Ok d)
    (default [] (files Demo.mixed_log !! "out/mixed.json"))
    [ {| toordinal := 738887; day_micros := 34200000000; utcoffset := Some 0 |};
      {| toordinal := 738887; day_micros := 34200000000; utcoffset := None |} ]
  /\ _check_recent_date "out/mixed.json" Demo.mixed_log
     = (Raised TypeError, Demo.mixed_log).
Proof.
  split; [repeat constructor|reflexivity].
Qed.

(** A line that is not JSON, and a line that is an object without [id]. *)
Lemma check_recent_date_unparseable_line_raises_witness :
  (exists e', _check_recent_date "out/broken.json" Demo.broken_log
              = (Raised e', Demo.broken_log))
  /\ (exists e', _check_recent_date "out/no_id.json" Demo.no_id_log
                 = (Raised e', Demo.no_id_log)).
Proof.
  split.
  - apply (check_recent_date_unparseable_line_raises "out/broken.json"
             Demo.broken_log
             [Demo.dumps Demo.rec_a +:+ nl; "not json" +:+ nl]
             ("not json" +:+ nl) ValueError).
    + reflexivity.
    + right. left. reflexivity.
    + reflexivity.
  - apply (check_recent_date_unparseable_line_raises "out/no_id.json"
             Demo.no_id_log
             [Demo.dumps Demo.rec_a +:+ nl;
              Demo.dumps (JObj [("name", JStr "f")]) +:+ nl]
             (Demo.dumps (JObj [("name", JStr "f")]) +:+ nl) KeyError).
    + reflexivity.
    + right. left. reflexivity.
    + reflexivity.
Defined.

(** *** C8 and C9: the command line and the configuration file *)

(** The output folder is not given on the command line and comes from the
    file; the credentials are given and win over the file. *)
Lemma config_fills_unset_arguments_witness :
  parse_args Demo.argv_plain !! "output_path" = Some JNull
  /\ merge_config Demo.plain_config (parse_args Demo.argv_plain) !! "output_path"
     = Some (JStr "out")
  /\ parse_args Demo.argv_plain !! "creds_path" = Some (JStr "creds.json")
  /\ merge_config Demo.plain_config (parse_args Demo.argv_plain) !! "creds_path"
     = Some (JStr "creds.json").
Proof.
  split; [reflexivity|]. split; [|split; [reflexivity|]].
  - destruct (config_fills_unset_arguments Demo.plain_config
                (parse_args Demo.argv_plain) "output_path" (JStr "out")
                eq_refl) as (_ & Hfalsy & _).
    apply (Hfalsy JNull); reflexivity.
  - destruct (config_fills_unset_arguments Demo.plain_config
                (parse_args Demo.argv_plain) "creds_path" (JStr "other.json")
                eq_refl) as (_ & _ & Htruthy).
    apply (Htruthy (JStr "creds.json")); reflexivity.
Defined.

(** C8.  A command line without [--apps] and a configuration file whose
    [apps] is [drive]: the flag is not set and the file has the key, yet the
    merged value is the default of the parser, and the run fetches the
    twenty-one default applications, not [drive]. *)
Theorem config_apps_is_not_used :
  cli_apps Demo.argv_bare = None
  /\ Demo.drive_config !! "apps" = Some (JStr "drive")
  /\ (args <-? load_config {[ "config.json" := Demo.drive_config ]}
                 (parse_args Demo.argv_bare);
      getattr args "apps")
     = Ok (JStr (String.concat "," DEFAULT_APPLICATIONS))
  /\ map fc_application_name
       (fetch_calls (snd (main 1 Demo.argv_bare
                            {[ "config.json" := Demo.drive_config ]}
                            Demo.quiet_service)))
     = DEFAULT_APPLICATIONS.
Proof. repeat split; vm_compute; reflexivity. Qed.

(** No [--daily], a configuration file without [daily] and [from_date]: the
    client is built and the run stops on [args.from_date]. *)
Lemma non_daily_run_needs_from_date_witness :
  exists e,
    main 1 Demo.argv_plain {[ "config.json" := Demo.plain_config ]}
      Demo.one_record = (Raised e, Demo.one_record)
    /\ parse_args Demo.argv_plain !! "from_date" = None
    /\ (forall args apps_arg apps google,
          load_config {[ "config.json" := Demo.plain_config ]}
            (parse_args Demo.argv_plain) = Ok args ->
          getattr args "apps" = Ok apps_arg ->
          convert_apps apps_arg = Ok apps ->
          Google_init args apps = Ok google ->
          e = AttributeError).
Proof.
  apply (non_daily_run_needs_from_date 1 Demo.argv_plain
           {[ "config.json" := Demo.plain_config ]} Demo.one_record);
    reflexivity.
Defined.

(** C9 as stated fails.  The command line has no [--daily] and the
    configuration file no [from_date], but the file sets [daily]: the run
    takes the daily branch, fetches and returns. *)
Lemma config_daily_fetches_without_from_date :
  cli_daily Demo.argv_plain = false
  /\ Demo.daily_config !! "from_date" = None
  /\ exists w',
       main 1 Demo.argv_plain {[ "config.json" := Demo.daily_config ]}
         Demo.one_record = (Returned tt, w')
       /\ map fc_application_name (fetch_calls w') = ["drive"]
       /\ files w' !! "out/2024-01-01T00:00:00Z_2024-01-01T12:00:00Z/drive_logs.json"
          = Some [line_of Demo.rec_a].
Proof.
  split; [reflexivity|]. split; [reflexivity|].
  eexists. split; [vm_compute; reflexivity|]. split; reflexivity.
Qed.

(** * Further properties of the program *)

Section Further.
Context {St : Type} {libs : PyLibs St}.
Implicit Types (w : world St) (f : string).

(** ** [_get_activity_logs]: counters, frame, errors *)

Lemma loop_error_result fuel app f ow st en tok oc tr w e s1 :
  list_execute (svc w) (list_request app st en tok) = (Err e, s1) ->
  _get_activity_logs_loop (S fuel) app f ow st en tok oc tr w
  = (match e with
     | TypeError => Returned (JBool false, JBool false)
     | _ => Raised e
     end, with_svc s1 w).
Proof.
  intros Hcall. cbn [_get_activity_logs_loop].
  unfold bind, execute_list. rewrite Hcall. now destruct e.
Qed.

(** The two counters move together: whatever the loop returns as integers
    differs from the counters it started with by the same amount, which is
    not negative. *)
Lemma loop_counters_agree app f ow st en fuel :
  forall tok oc tr w a b w',
    _get_activity_logs_loop fuel app f ow st en tok oc tr w
      = (Returned (a, b), w') ->
    (a = JBool false /\ b = JBool false)
    \/ exists n, 0 <= n /\ a = JInt (oc + n) /\ b = JInt (tr + n).
Proof.
  induction fuel as [|fuel IH]; intros tok oc tr w a b w' Hrun.
  - discriminate Hrun.
  - destruct (list_execute (svc w) (list_request app st en tok))
      as [[results|e] s1] eqn:Hcall.
    + rewrite (loop_answer _ _ _ _ _ _ _ _ _ _ _ _ Hcall) in Hrun.
      destruct (store_page_spec f ow (default [] (items results)) oc tr
                  (with_svc s1 w)) as (w2 & Hst & _).
      unfold bind in Hrun. rewrite Hst in Hrun. cbn [fst snd] in Hrun.
      destruct (String.eqb (default "" (nextPageToken results)) "").
      * injection Hrun as <- <- _. right.
        exists (Z.of_nat (length (default [] (items results)))).
        split; [lia|]. split; reflexivity.
      * apply IH in Hrun. destruct Hrun as [Hfalse|(n & Hn & -> & ->)];
          [left; exact Hfalse|]. right.
        exists (Z.of_nat (length (default [] (items results))) + n).
        split; [lia|]. split; f_equal; lia.
    + rewrite (loop_error_result _ _ _ _ _ _ _ _ _ _ _ _ Hcall) in Hrun.
      destruct e; try discriminate Hrun.
      injection Hrun as <- <- _. left. split; reflexivity.
Qed.

(** X6.  Whatever [_get_activity_logs] returns, "saved" and "found" are the same
    value: either both [False], or the same integer, not negative. *)
Theorem saved_equals_found fuel app f ow st en w a b w' :
  _get_activity_logs fuel app f ow st en w = (Returned (a, b), w') ->
  a = b /\ (a = JBool false \/ exists n, 0 <= n /\ a = JInt n).
Proof.
  rewrite get_activity_logs_unfold. intros Hrun.
  apply loop_counters_agree in Hrun.
  destruct Hrun as [[-> ->]|(n & Hn & -> & ->)].
  - split; [reflexivity|]. left. reflexivity.
  - split; [reflexivity|]. right. exists n. split; [exact Hn|]. f_equal.
Qed.

(** Any run of the loop, in either mode and whatever its outcome, changes
    no file but the output file. *)
Lemma loop_other_files app f ow st en fuel :
  forall tok oc tr w p,
    p <> f ->
    files (snd (_get_activity_logs_loop fuel app f ow st en tok oc tr w)) !! p
    = files w !! p.
Proof.
  induction fuel as [|fuel IH]; intros tok oc tr w p Hp.
  - reflexivity.
  - destruct (list_execute (svc w) (list_request app st en tok))
      as [[results|e] s1] eqn:Hcall.
    + rewrite (loop_answer _ _ _ _ _ _ _ _ _ _ _ _ Hcall).
      destruct (store_page_spec f ow (default [] (items results)) oc tr
                  (with_svc s1 w)) as (w2 & Hst & _ & _ & Hother & _).
      unfold bind. rewrite Hst. cbn [fst snd].
      destruct (String.eqb (default "" (nextPageToken results)) "").
      * cbn [ret snd]. now apply Hother.
      * rewrite IH by exact Hp. now apply Hother.
    + now rewrite (loop_error _ _ _ _ _ _ _ _ _ _ _ _ Hcall).
Qed.

(** X5.  A fetch writes to its output file only: every other file is, after
    the fetch, what it was before, in append and in overwrite mode, whether
    the fetch returns, raises or is cut short. *)
Theorem fetch_touches_only_its_file fuel app f ow st en w p :
  p <> f ->
  files (snd (_get_activity_logs fuel app f ow st en w)) !! p = files w !! p.
Proof.
  intros Hp. rewrite get_activity_logs_unfold.
  now rewrite loop_other_files by exact Hp.
Qed.

(** A pagination of pages without records leaves the world as it was, up
    to the state of the service, in either mode. *)
Lemma loop_empty_pages app f ow st en s tok pages s1 tok1 last s2 :
  walks app st en s tok pages s1 tok1 ->
  list_execute s1 (list_request app st en tok1) = (Ok last, s2) ->
  default "" (nextPageToken last) = "" ->
  Forall (fun page => page = []) pages ->
  default [] (items last) = [] ->
  forall fuel oc tr w,
    svc w = s -> (length pages < fuel)%nat ->
    _get_activity_logs_loop fuel app f ow st en tok oc tr w
    = (Returned (JInt oc, JInt tr), with_svc s2 w).
Proof.
  induction 1 as [s tok|s tok results s1 t pages s' tok' Hcall Htok Hne Hw IH];
    intros Hlast Hend Hempty Hnone fuel oc tr w Hs Hfuel;
    (destruct fuel as [|fuel]; [simpl in Hfuel; lia|]); subst s.
  - rewrite (loop_answer _ _ _ _ _ _ _ _ _ _ _ _ Hlast), Hnone, Hend.
    reflexivity.
  - inversion Hempty as [|? ? Hpage Hrest]; subst.
    rewrite (loop_answer _ _ _ _ _ _ _ _ _ _ _ _ Hcall), Hpage, Htok.
    cbn [store_page default from_option id]. unfold bind, ret. cbn [fst snd].
    apply String.eqb_neq in Hne. rewrite Hne.
    rewrite (IH Hlast Hend Hrest Hnone fuel oc tr (with_svc s1 w));
      [reflexivity|reflexivity|simpl in Hfuel; lia].
Qed.

(** X4.  When no page of the answer holds a record, the fetch reports
    [(0, 0)] and leaves every file as it was: in overwrite mode too, the
    output file is neither truncated nor created. *)
Theorem empty_pages_change_nothing
    fuel app f ow st en w pages s1 tok1 last s2 :
  walks app st en (svc w) None pages s1 tok1 ->
  list_execute s1 (list_request app st en tok1) = (Ok last, s2) ->
  default "" (nextPageToken last) = "" ->
  Forall (fun page => page = []) pages ->
  default [] (items last) = [] ->
  (length pages < fuel)%nat ->
  exists w',
    _get_activity_logs fuel app f ow st en w = (Returned (JInt 0, JInt 0), w')
    /\ files w' = files w
    /\ fs_events w' = fs_events w
    /\ svc w' = s2.
Proof.
  intros Hwalk Hlast Hend Hempty Hnone Hfuel.
  rewrite get_activity_logs_unfold.
  rewrite (loop_empty_pages app f ow st en _ _ _ _ _ _ _ Hwalk Hlast Hend
             Hempty Hnone fuel 0 0
             (with_fetch_call
                {| fc_application_name := app; fc_output_file := f;
                   fc_overwrite := ow; fc_start_time := st;
                   fc_end_time := en |} w) eq_refl Hfuel).
  eexists. split; [reflexivity|]. repeat split.
Qed.

(** An exception of the list call other than [TypeError] leaves the loop. *)
Lemma loop_other_error app f ow st en s tok pages s1 tok1 e s2 :
  walks app st en s tok pages s1 tok1 ->
  list_execute s1 (list_request app st en tok1) = (Err e, s2) ->
  e <> TypeError ->
  forall fuel oc tr w,
    svc w = s -> (length pages < fuel)%nat ->
    exists w',
      _get_activity_logs_loop fuel app f ow st en tok oc tr w = (Raised e, w')
      /\ svc w' = s2.
Proof.
  induction 1 as [s tok|s tok results s1 t pages s' tok' Hcall Htok Hne Hw IH];
    intros Hlast Herr fuel oc tr w Hs Hfuel;
    (destruct fuel as [|fuel]; [simpl in Hfuel; lia|]); subst s.
  - rewrite (loop_error_result _ _ _ _ _ _ _ _ _ _ _ _ Hlast).
    exists (with_svc s2 w). split; [|reflexivity].
    destruct e; congruence.
  - rewrite (loop_answer _ _ _ _ _ _ _ _ _ _ _ _ Hcall).
    destruct (store_page_spec f ow (default [] (items results)) oc tr
                (with_svc s1 w)) as (w2 & Hst & Hsvc & _).
    unfold bind. rewrite Hst, Htok. cbn [default from_option id fst snd].
    apply String.eqb_neq in Hne. rewrite Hne.
    apply IH; [exact Hlast|exact Herr|now rewrite Hsvc|simpl in Hfuel; lia].
Qed.

(** X7.  Only [TypeError] is caught.  Any other exception of the list call, at
    the first page or at a later one, leaves [_get_activity_logs] and then
    [get_logs]: the applications after this one are not fetched. *)
Theorem other_errors_abort_run
    fuel self app rest from_date to_date total_saved total_found w
    start pages s1 tok1 e s2 :
  effective_from_date self (output_file_of self from_date to_date app)
    from_date w = (Returned start, w) ->
  walks app start to_date (svc w) None pages s1 tok1 ->
  list_execute s1 (list_request app start to_date tok1) = (Err e, s2) ->
  e <> TypeError ->
  (length pages < fuel)%nat ->
  exists w',
    _get_activity_logs fuel app (output_file_of self from_date to_date app)
      (overwrite self) start to_date w = (Raised e, w')
    /\ get_logs_loop fuel self (app :: rest) from_date to_date
         total_saved total_found w = (Raised e, w').
Proof.
  intros Hstart Hwalk Hlast Herr Hfuel.
  destruct (loop_other_error app (output_file_of self from_date to_date app)
              (overwrite self) start to_date _ _ _ _ _ _ _ Hwalk Hlast Herr
              fuel 0 0
              (with_fetch_call
                 {| fc_application_name := app;
                    fc_output_file := output_file_of self from_date to_date app;
                    fc_overwrite := overwrite self;
                    fc_start_time := start;
                    fc_end_time := to_date |} w) eq_refl Hfuel)
    as (w' & Hrun & _).
  exists w'. rewrite get_activity_logs_unfold. split; [exact Hrun|].
  cbn [get_logs_loop]. unfold bind at 1. rewrite Hstart.
  unfold bind at 1. rewrite get_activity_logs_unfold, Hrun. reflexivity.
Qed.

(** X3.  Overwrite mode, whole fetch: after a pagination that runs to its last
    page the file holds the reversed records of the last page that had
    any, and nothing of the pages before it; when no page had records the
    file is what it was.  Both counters still count every page. *)
Theorem overwrite_mode_keeps_last_page
    fuel app f ow st en w pages s1 tok1 last s2 :
  walks app st en (svc w) None pages s1 tok1 ->
  list_execute s1 (list_request app st en tok1) = (Ok last, s2) ->
  default "" (nextPageToken last) = "" ->
  truthy ow = true ->
  (length pages < fuel)%nat ->
  exists w',
    _get_activity_logs fuel app f ow st en w =
      (Returned (JInt (page_total (pages ++ [default [] (items last)])),
                 JInt (page_total (pages ++ [default [] (items last)]))), w')
    /\ files w' !! f =
       match last_nonempty (pages ++ [default [] (items last)]) with
       | Some page => Some (map line_of (rev page))
       | None => files w !! f
       end.
Proof.
  intros Hwalk Hlast Hend Hover Hfuel.
  rewrite get_activity_logs_unfold.
  destruct (loop_overwrite app f ow st en _ _ _ _ _ _ _ Hwalk Hlast Hend Hover
              fuel 0 0 (with_fetch_call
                          {| fc_application_name := app; fc_output_file := f;
                             fc_overwrite := ow; fc_start_time := st;
                             fc_end_time := en |} w) eq_refl Hfuel)
    as (w' & Hrun & Hfile).
  exists w'. rewrite Hrun. split; [reflexivity|exact Hfile].
Qed.

(** ** [get_logs]: totals and corrupt files *)

Lemma get_logs_loop_totals fuel self to_date apps :
  forall from_date total_saved total_found w saved found w',
    get_logs_loop fuel self apps from_date to_date total_saved total_found w
      = (Returned (saved, found), w') ->
    exists n, 0 <= n /\ saved = total_saved + n /\ found = total_found + n.
Proof.
  induction apps as [|app apps IH];
    intros from_date total_saved total_found w saved found w' Hrun.
  - injection Hrun as <- <- _. exists 0. lia.
  - cbn [get_logs_loop] in Hrun. unfold bind at 1 in Hrun.
    destruct (effective_from_date self _ from_date w) as [[start|e|] w0];
      try discriminate Hrun.
    unfold bind at 1 in Hrun.
    destruct (_get_activity_logs fuel app _ (overwrite self) start to_date w0)
      as [[[a b]|e|] w1] eqn:Hfetch; try discriminate Hrun.
    rewrite get_activity_logs_unfold in Hfetch.
    apply loop_counters_agree in Hfetch.
    cbn [fst snd] in Hrun. unfold bind at 1 in Hrun.
    destruct Hfetch as [[-> ->]|(n & Hn & -> & ->)].
    + cbn [iadd lift ret] in Hrun. unfold bind at 1 in Hrun.
      cbn [iadd lift ret] in Hrun.
      apply IH in Hrun. destruct Hrun as (m & Hm & -> & ->).
      exists m. lia.
    + cbn [iadd lift ret] in Hrun. unfold bind at 1 in Hrun.
      cbn [iadd lift ret] in Hrun.
      apply IH in Hrun. destruct Hrun as (m & Hm & -> & ->).
      exists (n + m). lia.
Qed.

(** X11.  The totals that [get_logs] logs are equal: "saved" never differs from
    "found", and neither is negative. *)
Theorem get_logs_totals_agree fuel self from_date to_date w saved found w' :
  get_logs fuel self from_date to_date w = (Returned (saved, found), w') ->
  saved = found /\ 0 <= saved.
Proof.
  unfold get_logs. intros Hrun. apply get_logs_loop_totals in Hrun.
  destruct Hrun as (n & Hn & -> & ->). lia.
Qed.

(** X10.  In update mode a line that does not parse in the file of an
    application stops [get_logs] before any list call for it: the exception
    of the scanner is not caught, and the applications after it are not
    fetched either. *)
Theorem corrupt_file_aborts_update_run
    fuel self app rest from_date to_date total_saved total_found w
    lines line e :
  truthy (update self) = true ->
  files w !! output_file_of self from_date to_date app = Some lines ->
  In line lines ->
  line_datetime_of line = Err e ->
  exists e',
    get_logs_loop fuel self (app :: rest) from_date to_date
      total_saved total_found w = (Raised e', w).
Proof.
  intros Hupd Hfile Hin Herr.
  destruct (scan_lines_unparseable lines line e Hin Herr None) as (e' & Hscan).
  exists e'. cbn [get_logs_loop]. unfold bind at 1.
  unfold effective_from_date. rewrite Hupd.
  unfold bind, _check_recent_date. rewrite Hfile, Hscan. reflexivity.
Qed.

(** ** The configuration merge *)

(** X13.  A truthy value of the parsed arguments survives the merge, whatever
    the configuration file holds. *)
Theorem truthy_arguments_survive_merge
    (config args : gmap string json) key cli_value :
  args !! key = Some cli_value ->
  truthy_json cli_value = true ->
  merge_config config args !! key = Some cli_value.
Proof.
  intros Hargs Htruthy.
  destruct (config !! key) as [value|] eqn:Hcfg.
  - rewrite (merge_config_member _ _ _ _ Hcfg), Hargs.
    cbn [resolved]. now rewrite Htruthy.
  - now rewrite merge_config_other.
Qed.

(** X14.  The merged namespace has the keys of the parsed arguments and those of
    the configuration file: a key the parser does not define is added. *)
Theorem merge_config_keys (config args : gmap string json) :
  dom (merge_config config args) = dom args ∪ dom config.
Proof.
  apply set_eq. intros key.
  rewrite elem_of_union, !elem_of_dom.
  destruct (config !! key) as [value|] eqn:Hcfg.
  - rewrite (merge_config_member _ _ _ _ Hcfg). split; eauto.
  - rewrite merge_config_other by exact Hcfg.
    split; [auto|]. intros [H|[? [=]]]. exact H.
Qed.

(** X15.  Merging the same configuration file a second time changes nothing. *)
Theorem merge_config_idempotent (config args : gmap string json) :
  merge_config config (merge_config config args) = merge_config config args.
Proof.
  apply map_eq. intros key.
  destruct (config !! key) as [value|] eqn:Hcfg.
  - rewrite !(merge_config_member _ _ _ _ Hcfg). f_equal.
    unfold resolved. destruct (args !! key) as [current|].
    + destruct (truthy_json current) eqn:Hcur.
      * now rewrite Hcur.
      * now destruct (truthy_json value).
    + now destruct (truthy_json value).
  - now rewrite !merge_config_other by exact Hcfg.
Qed.

(** ** [Google.__init__] and the run without the daily split *)

Lemma merged_keeps_parser_key (config : gmap string json) argv key :
  is_Some (parse_args argv !! key) ->
  is_Some (merge_config config (parse_args argv) !! key).
Proof.
  intros Hkey. destruct (config !! key) as [value|] eqn:Hcfg.
  - rewrite (merge_config_member _ _ _ _ Hcfg). eauto.
  - now rewrite merge_config_other.
Qed.

(** X19.  The call of the constructor on the merged namespace raises
    [TypeError] when the configuration file has the key [self], which
    clashes with the parameter of [__init__].  Otherwise the constructor
    finds the six keyword arguments it reads, so it never raises [KeyError]:
    it can only fail while creating the output folder or opening the
    session. *)
Theorem constructor_finds_its_arguments
    (config : gmap string json) argv apps :
  exists creds delegated out upd ovw,
    Google_init (merge_config config (parse_args argv)) apps
    = match config !! "self" with
      | Some _ => Err TypeError
      | None =>
          rbind (ensure_output_path (PJ out))
            (fun _ =>
               rbind (google_session (PJ creds) (PJ delegated))
                 (fun _ =>
                    Ok {| SERVICE_ACCOUNT_FILE := PJ creds;
                          delegated_creds := PJ delegated;
                          output_path := PJ out;
                          app_list := apps;
                          update := PJ upd;
                          overwrite := PJ ovw |}))
      end.
Proof.
  destruct (merged_keeps_parser_key config argv "creds_path")
    as [creds Hcreds]; [eexists; reflexivity|].
  destruct (merged_keeps_parser_key config argv "delegated_creds")
    as [delegated Hdelegated]; [eexists; reflexivity|].
  destruct (merged_keeps_parser_key config argv "output_path")
    as [out Hout]; [eexists; reflexivity|].
  destruct (merged_keeps_parser_key config argv "apps")
    as [apps_arg Happs]; [eexists; reflexivity|].
  destruct (merged_keeps_parser_key config argv "update")
    as [upd Hupd]; [eexists; reflexivity|].
  destruct (merged_keeps_parser_key config argv "overwrite")
    as [ovw Hovw]; [eexists; reflexivity|].
  exists creds, delegated, out, upd, ovw.
  unfold Google_init, kwarg.
  destruct (config !! "self") as [value|] eqn:Hself.
  - now rewrite (merge_config_member _ _ _ _ Hself).
  - rewrite (merge_config_other _ _ _ Hself).
    change (parse_args argv !! "self") with (@None json).
    cbn [rbind]. rewrite Hcreds, Hdelegated, Hout, Happs, Hupd, Hovw.
    reflexivity.
Qed.

(** X20.  Without the daily split, when the configuration file supplies
    [from_date], the run is one call of [get_logs] with that value as start
    and no end: [to_date] is [None], so the folder name ends in [_None] and
    the list calls carry no [endTime]; [--start-time] and [--end-time] are
    not read. *)
Theorem non_daily_run_is_open_ended
    fuel argv config_files w from_date apps_arg apps google :
  cli_daily argv = false ->
  truthy_json (default JNull (config_of config_files argv !! "daily")) = false ->
  config_of config_files argv !! "from_date" = Some from_date ->
  getattr (merge_config (config_of config_files argv) (parse_args argv)) "apps"
    = Ok apps_arg ->
  convert_apps apps_arg = Ok apps ->
  Google_init (merge_config (config_of config_files argv) (parse_args argv))
    apps = Ok google ->
  main fuel argv config_files w
  = bind (get_logs fuel google (PJ from_date) PNone) (fun _ => ret tt) w.
Proof.
  intros Hcli Hdaily Hfrom Happs Hconv Hinit.
  set (args := merge_config (config_of config_files argv) (parse_args argv)) in *.
  assert (Hnone : args !! "from_date" = Some from_date).
  { unfold args. rewrite (merge_config_member _ _ _ _ Hfrom).
    now rewrite parse_args_no_from_date. }
  assert (Hd : exists d, args !! "daily" = Some d /\ truthy_json d = false).
  { unfold args.
    destruct (config_of config_files argv !! "daily") as [v|] eqn:Hv.
    - exists v. split; [|exact Hdaily].
      rewrite (merge_config_member _ _ _ _ Hv).
      replace (parse_args argv !! "daily") with (Some (JBool (cli_daily argv)))
        by reflexivity.
      now rewrite Hcli.
    - exists (JBool false). split; [|reflexivity].
      rewrite merge_config_other by exact Hv.
      replace (parse_args argv !! "daily") with (Some (JBool (cli_daily argv)))
        by reflexivity.
      now rewrite Hcli. }
  destruct Hd as (d & Hdl & Hfalsy).
  unfold main. rewrite load_config_parse_args. fold args.
  unfold bind at 1. cbn [lift ret]. rewrite Happs.
  unfold bind at 1. cbn [lift ret]. rewrite Hconv.
  unfold bind at 1. cbn [lift ret]. rewrite Hinit.
  unfold bind, lift, ret, getattr. rewrite Hdl, Hfalsy, Hnone.
  reflexivity.
Qed.

(** ** The daily loop on any range *)

(** Shape of the windows for naive times [o : u] before [o' : u']: their
    number, the way the loop ends, the first start, the bounds of each
    window, the chaining and the last end. *)
Lemma daily_windows_shape o' u' n :
  0 <= u' < DAY_MICROS ->
  o' <= MAXORDINAL ->
  forall o u,
    1 <= o ->
    0 <= u < DAY_MICROS ->
    o * DAY_MICROS + u < o' * DAY_MICROS + u' ->
    (Z.to_nat (o' - o) + 2 <= n)%nat ->
    exists head rest init final,
      daily_windows n
        {| toordinal := o; day_micros := u; utcoffset := None |}
        {| toordinal := o'; day_micros := u'; utcoffset := None |}
      = (head :: rest,
         if (o' =? MAXORDINAL) && negb (u' =? 0)
         then ExitRaised OverflowError else ExitDone)
      /\ fst head = {| toordinal := o; day_micros := u; utcoffset := None |}
      /\ Z.of_nat (length (head :: rest))
         = o' - o + (if u' =? 0 then 0 else 1)
      /\ Forall (fun win =>
                   o * DAY_MICROS + u <= utc (fst win)
                   /\ utc (fst win) <= utc (snd win)
                   /\ utc (snd win) <= o' * DAY_MICROS + u') (head :: rest)
      /\ chained (head :: rest)
      /\ head :: rest = init ++ [final]
      /\ snd final = (if u' =? 0
                   then {| toordinal := o' - 1; day_micros := time_max;
                           utcoffset := None |}
                   else {| toordinal := o'; day_micros := u';
                           utcoffset := None |}).
Proof.
  intros Hu' Ho'.
  assert (HD : DAY_MICROS = 86400000000) by reflexivity.
  assert (HM : MAXORDINAL = 3652059) by reflexivity.
  assert (Hmax : time_max = 86399999999) by reflexivity.
  assert (Hmin : time_min = 0) by reflexivity.
  induction n as [|n IH]; intros o u Ho Hu Hlt Hn; [lia|].
  assert (Hoo : o <= o') by (rewrite ?HD in *; lia).
  set (s := {| toordinal := o; day_micros := u; utcoffset := None |}).
  set (e := {| toordinal := o'; day_micros := u'; utcoffset := None |}).
  set (eod := {| toordinal := o; day_micros := time_max; utcoffset := None |}).
  destruct (Z.leb_spec (o + 1) MAXORDINAL) as [Hin|Hout].
  - unfold s, e. rewrite daily_windows_step by (try exact Hlt; lia).
    destruct (Z.ltb_spec ((o + 1) * DAY_MICROS + time_min)
                         (o' * DAY_MICROS + u')) as [Hmore|Hdone].
    + (* another day follows *)
      destruct (IH (o + 1) time_min) as
        (next & rest & init & final & Hrun & Hfst & Hlen & Hall & Hchain & Hsplit & Hlast);
        [lia|rewrite ?Hmin, ?HD; lia|exact Hmore|
         rewrite ?HD, ?Hmin in *; lia|].
      rewrite Hrun.
      replace (o' * DAY_MICROS + u' <? o * DAY_MICROS + time_max) with false
        by (symmetry; apply Z.ltb_ge; rewrite ?HD, ?Hmax, ?Hmin in *; lia).
      exists (s, eod), (next :: rest), ((s, eod) :: init), final.
      split; [reflexivity|]. split; [reflexivity|].
      split; [cbn [length] in *; lia|].
      split.
      { constructor.
        - unfold s, eod, utc, instant. cbn. rewrite ?HD, ?Hmax in *. lia.
        - eapply Forall_impl; [exact Hall|]. cbn beta.
          intros win (H1 & H2 & H3). rewrite ?HD, ?Hmin in *. lia. }
      split.
      { cbn [chained]. split; [|exact Hchain].
        rewrite Hfst. unfold eod, utc, instant. cbn.
        rewrite ?HD, ?Hmax, ?Hmin. lia. }
      split; [now rewrite Hsplit|exact Hlast].
    + (* this was the last day *)
      destruct n as [|n']; [lia|].
      rewrite daily_windows_stop by exact Hdone.
      exists (s, if o' * DAY_MICROS + u' <? o * DAY_MICROS + time_max
                 then e else eod), [], [],
             (s, if o' * DAY_MICROS + u' <? o * DAY_MICROS + time_max
                 then e else eod).
      replace ((o' =? MAXORDINAL) && negb (u' =? 0)) with false.
      2:{ symmetry. destruct (Z.eqb_spec o' MAXORDINAL); [|reflexivity].
          destruct (Z.eqb_spec u' 0); [reflexivity|].
          exfalso. rewrite ?HD, ?Hmin in *. lia. }
      split; [reflexivity|]. split; [reflexivity|].
      split.
      { cbn [length]. destruct (Z.eqb_spec u' 0); rewrite ?HD, ?Hmin in *; lia. }
      split.
      { constructor; [|constructor].
        destruct (Z.ltb_spec (o' * DAY_MICROS + u') (o * DAY_MICROS + time_max));
          unfold s, e, eod, utc, instant; cbn; rewrite ?HD, ?Hmax in *; lia. }
      split; [exact I|]. split; [reflexivity|].
      cbn [snd].
      destruct (Z.ltb_spec (o' * DAY_MICROS + u') (o * DAY_MICROS + time_max));
        destruct (Z.eqb_spec u' 0); unfold e, eod; try reflexivity; f_equal;
        rewrite ?HD, ?Hmax, ?Hmin in *; lia.
  - (* the last day of the calendar *)
    assert (Hoeq : o = o') by lia. subst o'.
    unfold s, e. rewrite daily_windows_last_day by (try exact Hlt; lia).
    exists (s, if o * DAY_MICROS + u' <? o * DAY_MICROS + time_max
               then e else eod), [], [],
           (s, if o * DAY_MICROS + u' <? o * DAY_MICROS + time_max
               then e else eod).
    replace ((o =? MAXORDINAL) && negb (u' =? 0)) with true.
    2:{ symmetry. apply andb_true_intro. split.
        - apply Z.eqb_eq. lia.
        - apply negb_true_iff. apply Z.eqb_neq. lia. }
    split; [reflexivity|]. split; [reflexivity|].
    split.
    { cbn [length]. destruct (Z.eqb_spec u' 0); lia. }
    split.
    { constructor; [|constructor].
      destruct (Z.ltb_spec (o * DAY_MICROS + u') (o * DAY_MICROS + time_max));
        unfold s, e, eod, utc, instant; cbn; rewrite ?HD, ?Hmax in *; lia. }
    split; [exact I|]. split; [reflexivity|].
    cbn [snd].
    destruct (Z.ltb_spec (o * DAY_MICROS + u') (o * DAY_MICROS + time_max));
      destruct (Z.eqb_spec u' 0); unfold e, eod; try reflexivity; f_equal;
      rewrite ?HD, ?Hmax, ?Hmin in *; lia.
Qed.

(** X22.  The daily loop calls [get_logs] once for each calendar day that the
    range from [start_time] up to [end_time] touches, and not at all when
    [start_time] is not before [end_time]. *)
Theorem daily_windows_count n start_time end_time :
  utcoffset start_time = None ->
  utcoffset end_time = None ->
  valid_datetime start_time ->
  valid_datetime end_time ->
  (daily_bound start_time end_time <= n)%nat ->
  Z.of_nat (length (fst (daily_windows n start_time end_time)))
  = (if utc start_time <? utc end_time
     then calendar_days start_time end_time else 0).
Proof.
  intros Hs He Vs Ve Hn.
  destruct start_time as [o u off], end_time as [o' u' off'].
  cbn [utcoffset] in Hs, He. subst off off'.
  unfold valid_datetime, calendar_days, daily_bound, utc, instant in *.
  cbn [toordinal day_micros utcoffset default from_option id] in *.
  rewrite !Z.sub_0_r.
  destruct (Z.ltb_spec (o * DAY_MICROS + u) (o' * DAY_MICROS + u')) as [Hlt|Hge].
  - destruct (daily_windows_shape o' u' n ltac:(lia) ltac:(lia) o u
                ltac:(lia) ltac:(lia) Hlt Hn)
      as (head & rest & _ & _ & Hrun & _ & Hlen & _).
    rewrite Hrun. exact Hlen.
  - destruct n as [|n]; [lia|].
    now rewrite daily_windows_stop.
Qed.

(** X23.  The windows of a daily run tile the range: the first starts at
    [start_time]; each following one starts one microsecond after the one
    before it ends; every window lies between [start_time] and [end_time];
    the last ends at [end_time], or at the last microsecond of the day
    before when [end_time] is a midnight. *)
Theorem daily_windows_tile_the_range n start_time end_time :
  utcoffset start_time = None ->
  utcoffset end_time = None ->
  valid_datetime start_time ->
  valid_datetime end_time ->
  utc start_time < utc end_time ->
  (daily_bound start_time end_time <= n)%nat ->
  exists head rest init final,
    fst (daily_windows n start_time end_time) = head :: rest
    /\ head :: rest = init ++ [final]
    /\ fst head = start_time
    /\ chained (head :: rest)
    /\ Forall (fun win =>
                 utc start_time <= utc (fst win)
                 /\ utc (fst win) <= utc (snd win)
                 /\ utc (snd win) <= utc end_time) (head :: rest)
    /\ snd final = (if day_micros end_time =? 0
                    then day_end end_time (-1) else end_time).
Proof.
  intros Hs He Vs Ve Hlt Hn.
  destruct start_time as [o u off], end_time as [o' u' off'].
  cbn [utcoffset] in Hs, He. subst off off'.
  unfold valid_datetime, daily_bound, utc, instant in *.
  cbn [toordinal day_micros utcoffset default from_option id] in *.
  rewrite !Z.sub_0_r in *.
  destruct (daily_windows_shape o' u' n ltac:(lia) ltac:(lia) o u
              ltac:(lia) ltac:(lia) Hlt Hn)
    as (head & rest & init & final & Hrun & Hfst & _ & Hall & Hchain
        & Hsplit & Hlast).
  exists head, rest, init, final. rewrite Hrun.
  split; [reflexivity|]. split; [exact Hsplit|]. split; [exact Hfst|].
  split; [exact Hchain|]. split; [exact Hall|].
  rewrite Hlast. unfold day_end. cbn [toordinal].
  destruct (u' =? 0); [|reflexivity]. f_equal.
Qed.

(** X24.  A daily run ends after its last window: normally, or with the
    [OverflowError] of [start_time + timedelta(days=1)] when the range
    reaches into the last day of the calendar. *)
Theorem daily_run_end n start_time end_time :
  utcoffset start_time = None ->
  utcoffset end_time = None ->
  valid_datetime start_time ->
  valid_datetime end_time ->
  utc start_time < utc end_time ->
  (daily_bound start_time end_time <= n)%nat ->
  snd (daily_windows n start_time end_time)
  = (if (toordinal end_time =? MAXORDINAL) && negb (day_micros end_time =? 0)
     then ExitRaised OverflowError else ExitDone).
Proof.
  intros Hs He Vs Ve Hlt Hn.
  destruct start_time as [o u off], end_time as [o' u' off'].
  cbn [utcoffset] in Hs, He. subst off off'.
  unfold valid_datetime, daily_bound, utc, instant in *.
  cbn [toordinal day_micros utcoffset default from_option id] in *.
  rewrite !Z.sub_0_r in *.
  destruct (daily_windows_shape o' u' n ltac:(lia) ltac:(lia) o u
              ltac:(lia) ltac:(lia) Hlt Hn)
    as (head & rest & _ & _ & Hrun & _).
  now rewrite Hrun.
Qed.

(** ** The file of an application *)

Lemma list_ascii_of_append (a b : string) :
  String.list_ascii_of_string (a +:+ b)
  = String.list_ascii_of_string a ++ String.list_ascii_of_string b.
Proof. induction a as [|c a IH]; simpl; [reflexivity|now f_equal]. Qed.

Lemma list_ascii_inj (a b : string) :
  String.list_ascii_of_string a = String.list_ascii_of_string b -> a = b.
Proof.
  intros H. apply (f_equal String.string_of_list_ascii) in H.
  now rewrite !String.string_of_list_ascii_of_string in H.
Qed.

Lemma output_file_of_inj self from_date to_date app1 app2 :
  output_file_of self from_date to_date app1
  = output_file_of self from_date to_date app2 ->
  app1 = app2.
Proof.
  unfold output_file_of. intros H.
  apply (f_equal String.list_ascii_of_string) in H.
  rewrite !list_ascii_of_append in H.
  apply app_inv_head in H. apply app_inv_head in H.
  apply app_inv_tail in H. now apply list_ascii_inj.
Qed.

(** X12.  Within one window, two applications never share an output file. *)
Theorem output_files_differ_by_application self from_date to_date app1 app2 :
  app1 <> app2 ->
  output_file_of self from_date to_date app1
  <> output_file_of self from_date to_date app2.
Proof. intros Hne Heq. apply Hne. eapply output_file_of_inj. exact Heq. Qed.

(** ** Update mode when nothing is on disk yet *)

(** One iteration of [get_logs] whose start time is the [from_date] it
    came with. *)
Lemma get_logs_loop_same_start
    fuel self app rest from_date to_date total_saved total_found w :
  effective_from_date self (output_file_of self from_date to_date app)
    from_date w = (Returned from_date, w) ->
  get_logs_loop fuel self (app :: rest) from_date to_date
    total_saved total_found w
  = match _get_activity_logs fuel app
            (output_file_of self from_date to_date app) (overwrite self)
            from_date to_date w with
    | (Returned counts, w1) =>
        match iadd total_saved (fst counts) with
        | Ok saved =>
            match iadd total_found (snd counts) with
            | Ok found =>
                get_logs_loop fuel self rest from_date to_date saved found w1
            | Err e => (Raised e, w1)
            end
        | Err e => (Raised e, w1)
        end
    | (Raised e, w1) => (Raised e, w1)
    | (OutOfFuel, w1) => (OutOfFuel, w1)
    end.
Proof.
  intros Hstart. cbn [get_logs_loop]. unfold bind at 1. rewrite Hstart.
  unfold bind at 1.
  destruct (_get_activity_logs fuel app _ (overwrite self) from_date to_date w)
    as [[counts|e|] w1]; try reflexivity.
  unfold bind at 1.
  destruct (iadd total_saved (fst counts)) as [saved|e]; [|reflexivity].
  cbn [lift ret]. unfold bind at 1.
  destruct (iadd total_found (snd counts)) as [found|e]; reflexivity.
Qed.

Lemma effective_from_date_nothing_on_disk self output_file from_date w :
  default [] (files w !! output_file) = [] ->
  effective_from_date self output_file from_date w = (Returned from_date, w).
Proof.
  intros Hempty. unfold effective_from_date.
  destruct (truthy (update self)); [|reflexivity].
  unfold bind, _check_recent_date.
  destruct (files w !! output_file) as [lines|]; [|reflexivity].
  cbn in Hempty. subst lines. reflexivity.
Qed.

(** As long as no iteration moves the start of the window, the calls of a
    run are the planned ones.  [keeps apps w] is what makes the iterations
    over [apps] from [w] leave the start alone; it must survive a fetch. *)
Lemma get_logs_loop_calls_planned fuel self from_date to_date
    (keeps : list string -> world St -> Prop) :
  (forall app apps w,
     keeps (app :: apps) w ->
     effective_from_date self (output_file_of self from_date to_date app)
       from_date w = (Returned from_date, w)
     /\ keeps apps
          (snd (_get_activity_logs fuel app
                  (output_file_of self from_date to_date app) (overwrite self)
                  from_date to_date w))) ->
  forall apps total_saved total_found w,
    keeps apps w ->
    calls_planned self from_date to_date apps (fetch_calls w)
      (get_logs_loop fuel self apps from_date to_date
         total_saved total_found w).
Proof.
  intros Hkeeps.
  induction apps as [|app apps IH]; intros total_saved total_found w Hw.
  - unfold calls_planned. cbn. now rewrite app_nil_r.
  - destruct (Hkeeps app apps w Hw) as [Hstart Hnext].
    rewrite (get_logs_loop_same_start _ _ _ _ _ _ _ _ _ Hstart).
    pose proof (get_activity_logs_records_call fuel app
                  (output_file_of self from_date to_date app) (overwrite self)
                  from_date to_date w) as Hcall.
    assert (Hstop : forall (stopped : outcome (Z * Z)) final,
              fetch_calls final
              = fetch_calls w ++ [planned_call self from_date to_date app] ->
              (forall totals, stopped <> Returned totals) ->
              calls_planned self from_date to_date (app :: apps)
                (fetch_calls w) (stopped, final)).
    { intros stopped final Hfinal Hnot. unfold calls_planned. cbn [fst snd].
      destruct stopped as [totals| |]; [now destruct (Hnot totals)| |];
        exists [], app, apps; cbn; auto. }
    destruct (_get_activity_logs fuel app _ (overwrite self) from_date to_date w)
      as [[counts|e|] w1]; cbn [snd] in Hcall, Hnext;
      [|now apply Hstop|now apply Hstop].
    destruct (iadd total_saved (fst counts)) as [saved|e];
      [|now apply Hstop].
    destruct (iadd total_found (snd counts)) as [found|e];
      [|now apply Hstop].
    specialize (IH saved found w1 Hnext). unfold calls_planned in *.
    destruct (get_logs_loop fuel self apps from_date to_date saved found w1)
      as [[totals|e|] w2]; cbn [fst snd] in *.
    + rewrite IH, Hcall, <- app_assoc. reflexivity.
    + destruct IH as (done & stop & rest & -> & Hfc).
      exists (app :: done), stop, rest. split; [reflexivity|].
      rewrite Hfc, Hcall, <- app_assoc. reflexivity.
    + destruct IH as (done & stop & rest & -> & Hfc).
      exists (app :: done), stop, rest. split; [reflexivity|].
      rewrite Hfc, Hcall, <- app_assoc. reflexivity.
Qed.

(** X8.  Without update mode [get_logs] calls [_get_activity_logs] for the
    applications in the order of the list, each with the file named after
    the window passed to [get_logs] and the application, the overwrite flag
    and that window.  A run that returns has made the call of every
    application; a run that stops has made the calls up to the application
    at which it stopped. *)
Theorem get_logs_calls_without_update
    fuel self from_date to_date apps total_saved total_found w :
  truthy (update self) = false ->
  calls_planned self from_date to_date apps (fetch_calls w)
    (get_logs_loop fuel self apps from_date to_date total_saved total_found w).
Proof.
  intros Hupd.
  apply (get_logs_loop_calls_planned fuel self from_date to_date
           (fun _ _ => True)); [|exact I].
  intros app rest v _. split; [|exact I].
  unfold effective_from_date. now rewrite Hupd.
Qed.

(** X9.  A first run in update mode is a plain run: when the applications
    are distinct plain names and their files for the window are absent or
    empty, the records written for one application are not what the scan
    for the next one reads, so every call of [_get_activity_logs] gets the
    file named after the window and the start of the window. *)
Theorem first_update_run_uses_the_window
    fuel self from_date to_date apps total_saved total_found w :
  NoDup apps ->
  Forall (fun app => plain_name app = true) apps ->
  (forall app, In app apps ->
     default [] (files w !! output_file_of self from_date to_date app) = []) ->
  calls_planned self from_date to_date apps (fetch_calls w)
    (get_logs_loop fuel self apps from_date to_date total_saved total_found w).
Proof.
  intros Hnd _ Hdisk.
  apply (get_logs_loop_calls_planned fuel self from_date to_date
           (fun names v =>
              NoDup names
              /\ forall app, In app names ->
                   default [] (files v
                               !! output_file_of self from_date to_date app)
                   = [])); [|now split].
  intros app rest v [Hnames Hempty].
  apply NoDup_cons in Hnames as [Hfresh Hnames].
  split; [apply effective_from_date_nothing_on_disk, Hempty; now left|].
  split; [exact Hnames|].
  intros other Hin. rewrite get_activity_logs_unfold, loop_other_files.
  - apply Hempty. now right.
  - intros Heq. apply output_file_of_inj in Heq. subst other.
    apply Hfresh. now apply list_elem_of_In.
Qed.

(** ** The list of applications *)

Lemma lower_char_idem c : lower_char (lower_char c) = lower_char c.
Proof. destruct c as [[] [] [] [] [] [] [] []]; reflexivity. Qed.

Lemma is_space_lower_char c : is_space (lower_char c) = is_space c.
Proof. destruct c as [[] [] [] [] [] [] [] []]; reflexivity. Qed.

Lemma drop_space_lower l :
  drop_space (map lower_char l) = map lower_char (drop_space l).
Proof.
  induction l as [|c l IH]; [reflexivity|].
  cbn [map drop_space]. rewrite is_space_lower_char.
  destruct (is_space c); [exact IH|reflexivity].
Qed.

Lemma drop_space_head l :
  match drop_space l with
  | c :: _ => is_space c = false
  | [] => True
  end.
Proof.
  induction l as [|c l IH]; [exact I|].
  cbn [drop_space]. destruct (is_space c) eqn:Hc; [exact IH|exact Hc].
Qed.

Lemma drop_space_fixed c l : is_space c = false -> drop_space (c :: l) = c :: l.
Proof. intros Hc. cbn [drop_space]. now rewrite Hc. Qed.

Lemma drop_space_snoc l c :
  is_space c = false -> drop_space (l ++ [c]) = drop_space l ++ [c].
Proof.
  intros Hc. induction l as [|d l IH].
  - cbn. now rewrite Hc.
  - cbn [List.app drop_space]. destruct (is_space d); [exact IH|reflexivity].
Qed.

(** Trimming a list that starts with no space keeps its head, and trimming
    twice is trimming once. *)
Lemma trim_end_cons c l :
  is_space c = false ->
  rev (drop_space (rev (c :: l))) = c :: rev (drop_space (rev l)).
Proof.
  intros Hc. cbn [rev]. rewrite drop_space_snoc by exact Hc.
  now rewrite rev_app_distr.
Qed.

Lemma trim_idem l :
  let t := rev (drop_space (rev (drop_space l))) in
  rev (drop_space (rev (drop_space t))) = t.
Proof.
  cbn zeta. pose proof (drop_space_head l) as Hhead.
  destruct (drop_space l) as [|c r].
  - reflexivity.
  - rewrite trim_end_cons by exact Hhead.
    rewrite drop_space_fixed by exact Hhead.
    rewrite trim_end_cons by exact Hhead.
    f_equal. rewrite rev_involutive.
    pose proof (drop_space_head (rev r)) as Htail.
    destruct (drop_space (rev r)) as [|d r'] eqn:Hr; [reflexivity|].
    now rewrite drop_space_fixed by exact Htail.
Qed.

Lemma str_lower_idem s : str_lower (str_lower s) = str_lower s.
Proof.
  unfold str_lower. rewrite String.list_ascii_of_string_of_list_ascii.
  rewrite map_map. f_equal. apply map_ext. intros c. apply lower_char_idem.
Qed.

Lemma str_strip_idem s : str_strip (str_strip s) = str_strip s.
Proof.
  unfold str_strip. rewrite String.list_ascii_of_string_of_list_ascii.
  f_equal. apply trim_idem.
Qed.

Lemma str_strip_lower s : str_strip (str_lower s) = str_lower (str_strip s).
Proof.
  unfold str_strip, str_lower.
  rewrite !String.list_ascii_of_string_of_list_ascii. f_equal.
  rewrite drop_space_lower, <- map_rev, drop_space_lower, <- map_rev.
  reflexivity.
Qed.

Lemma normal_after_convert x : normal_name (str_lower (str_strip x)).
Proof.
  split.
  - now rewrite str_strip_lower, str_strip_idem.
  - apply str_lower_idem.
Qed.

(** X17.  Unless the argument asks for [all], every name that [convert_apps]
    returns is trimmed and in lower case. *)
Theorem convert_apps_normalizes s apps :
  convert_apps (JStr s) = Ok apps ->
  str_lower (str_strip s) <> "all" ->
  Forall normal_name apps.
Proof.
  unfold convert_apps. intros Hconv Hall.
  apply String.eqb_neq in Hall. rewrite Hall in Hconv.
  destruct (truthy_json (JStr s)).
  - injection Hconv as <-. apply Forall_forall. intros a Ha.
    apply list_elem_of_In, in_map_iff in Ha. destruct Ha as (x & <- & _).
    apply normal_after_convert.
  - injection Hconv as <-. constructor.
Qed.

Lemma split_on_no_sep sep cur x :
  ~ In sep x ->
  split_on sep cur x = [String.string_of_list_ascii (rev cur ++ x)].
Proof.
  revert cur. induction x as [|c x IH]; intros cur Hx.
  - cbn. now rewrite app_nil_r.
  - cbn [split_on]. destruct (Ascii.eqb_spec c sep) as [->|Hne].
    + exfalso. apply Hx. now left.
    + rewrite IH by (intros H; apply Hx; now right).
      cbn [rev]. now rewrite <- app_assoc.
Qed.

Lemma split_on_app sep cur x rest :
  ~ In sep x ->
  split_on sep cur (x ++ sep :: rest)
  = String.string_of_list_ascii (rev cur ++ x) :: split_on sep [] rest.
Proof.
  revert cur. induction x as [|c x IH]; intros cur Hx.
  - cbn [List.app split_on]. rewrite Ascii.eqb_refl. now rewrite app_nil_r.
  - cbn [List.app split_on]. destruct (Ascii.eqb_spec c sep) as [->|Hne].
    + exfalso. apply Hx. now left.
    + rewrite IH by (intros H; apply Hx; now right).
      cbn [rev]. now rewrite <- app_assoc.
Qed.

(** [','.join(names).split(',')] gives [names] back. *)
Lemma split_join names :
  names <> [] ->
  Forall comma_free names ->
  str_split ","%char (String.concat "," names) = names.
Proof.
  unfold str_split. induction names as [|a names IH]; [congruence|].
  intros _ Hfree. inversion Hfree as [|? ? Ha Hrest]; subst.
  destruct names as [|b names].
  - cbn [String.concat]. rewrite split_on_no_sep by exact Ha.
    cbn [rev List.app]. now rewrite String.string_of_list_ascii_of_string.
  - replace (String.concat "," (a :: b :: names))
      with (a +:+ "," +:+ String.concat "," (b :: names)) by reflexivity.
    rewrite !list_ascii_of_append.
    change (String.list_ascii_of_string ",") with [","%char].
    cbn [List.app].
    rewrite split_on_app by exact Ha.
    cbn [rev List.app]. rewrite String.string_of_list_ascii_of_string.
    f_equal. apply IH; [discriminate|exact Hrest].
Qed.

(** X18.  Joining names with commas and converting gives the names back, as
    long as they are trimmed, in lower case and free of commas, and the
    joined text is neither empty nor [all]: so the default of [--apps] is
    the list [DEFAULT_APPLICATIONS]. *)
Theorem convert_apps_of_joined_names names :
  names <> [] ->
  Forall normal_name names ->
  Forall comma_free names ->
  String.concat "," names <> "" ->
  str_lower (str_strip (String.concat "," names)) <> "all" ->
  convert_apps (JStr (String.concat "," names)) = Ok names.
Proof.
  intros Hne Hnormal Hfree Hnonempty Hall.
  unfold convert_apps. apply String.eqb_neq in Hall. rewrite Hall.
  cbn [truthy_json]. apply String.eqb_neq in Hnonempty. rewrite Hnonempty.
  cbn [negb]. f_equal. rewrite split_join by assumption.
  clear -Hnormal. induction Hnormal as [|a names [Hstrip Hlower] _ IH].
  - reflexivity.
  - cbn [map]. now rewrite Hstrip, Hlower, IH.
Qed.

(** ** The daily run as a whole *)

(** X21.  With the daily split on, once the client is built and both times
    parse, the run is: one call of [get_logs] per window of
    [daily_windows], in order, each window sent as two formatted strings,
    then the end of the loop.  The bound given to the loop plays no part. *)
Theorem daily_run_calls_get_logs_per_window
    fuel argv config_files w apps_arg apps google daily
    start_arg end_arg start_time end_time :
  getattr (merge_config (config_of config_files argv) (parse_args argv)) "apps"
    = Ok apps_arg ->
  convert_apps apps_arg = Ok apps ->
  Google_init (merge_config (config_of config_files argv) (parse_args argv))
    apps = Ok google ->
  getattr (merge_config (config_of config_files argv) (parse_args argv)) "daily"
    = Ok daily ->
  truthy_json daily = true ->
  getattr (merge_config (config_of config_files argv) (parse_args argv))
    "start_time" = Ok start_arg ->
  strptime start_arg = Ok start_time ->
  getattr (merge_config (config_of config_files argv) (parse_args argv))
    "end_time" = Ok end_arg ->
  strptime end_arg = Ok end_time ->
  main fuel argv config_files w
  = call_windows fuel google
      (fst (daily_windows (daily_bound start_time end_time)
              start_time end_time))
      (snd (daily_windows (daily_bound start_time end_time)
              start_time end_time)) w.
Proof.
  intros Happs Hconv Hinit Hdaily Htruthy Hstart Hs Hend He.
  unfold main. rewrite load_config_parse_args.
  rewrite <- daily_loop_calls_windows.
  unfold bind, lift, ret.
  rewrite Happs, Hconv, Hinit, Hdaily, Htruthy, Hstart, Hs, Hend, He.
  reflexivity.
Qed.

End Further.

(** ** Runs on concrete inputs, continued *)

(** Append mode over a file whose only line has no line break, pages [[a]]
    then [[b]]: the first record continues that line. *)
Example append_continues_unfinished_line :
  default [] (files (snd (_get_activity_logs 2 "drive" "out/drive_logs.json"
                            (PJ (JBool false)) PNone PNone
                            Demo.two_pages_over_old))
              !! "out/drive_logs.json")
  = ["old" +:+ line_of Demo.rec_a; line_of Demo.rec_b].
Proof. vm_compute. reflexivity. Qed.

Lemma append_mode_keeps_prior_content_witness :
  exists added,
    file_text
      (default [] (files (snd (_get_activity_logs 2 "drive"
                                 "out/drive_logs.json"
                                 (PJ (JBool false)) PNone PNone
                                 Demo.two_pages_over_old))
                   !! "out/drive_logs.json"))
    = file_text (default [] (files Demo.two_pages_over_old
                             !! "out/drive_logs.json"))
      +:+ added
    /\ forall p, p <> "out/drive_logs.json" ->
         files (snd (_get_activity_logs 2 "drive" "out/drive_logs.json"
                       (PJ (JBool false)) PNone PNone
                       Demo.two_pages_over_old)) !! p
         = files Demo.two_pages_over_old !! p.
Proof.
  apply (append_mode_keeps_prior_content 2 "drive" "out/drive_logs.json"
           (PJ (JBool false)) PNone PNone Demo.two_pages_over_old).
  reflexivity.
Defined.

Lemma saved_equals_found_witness :
  JInt 3 = JInt 3 /\ (JInt 3 = JBool false \/ exists n, 0 <= n /\ JInt 3 = JInt n).
Proof.
  apply (saved_equals_found 2 "drive" "out/drive_logs.json" (PJ (JBool true))
           PNone PNone Demo.two_pages (JInt 3) (JInt 3)
           (snd (_get_activity_logs 2 "drive" "out/drive_logs.json"
                   (PJ (JBool true)) PNone PNone Demo.two_pages))).
  reflexivity.
Defined.

Lemma fetch_touches_only_its_file_witness :
  files (snd (_get_activity_logs 2 "admin" "out/admin_logs.json"
                (PJ (JBool true)) PNone PNone Demo.two_pages_over_old))
    !! "out/drive_logs.json"
  = files Demo.two_pages_over_old !! "out/drive_logs.json".
Proof.
  apply (fetch_touches_only_its_file 2 "admin" "out/admin_logs.json"
           (PJ (JBool true)) PNone PNone Demo.two_pages_over_old
           "out/drive_logs.json").
  discriminate.
Defined.

Lemma empty_pages_change_nothing_witness :
  exists w',
    _get_activity_logs 2 "drive" "out/drive_logs.json" (PJ (JBool true))
      PNone PNone Demo.empty_pages_over_old = (Returned (JInt 0, JInt 0), w')
    /\ files w' = files Demo.empty_pages_over_old
    /\ fs_events w' = fs_events Demo.empty_pages_over_old
    /\ svc w' = [].
Proof.
  apply (empty_pages_change_nothing 2 "drive" "out/drive_logs.json"
           (PJ (JBool true)) PNone PNone Demo.empty_pages_over_old
           [[]] [Demo.page [] None] (Some "t2")
           {| items := Some []; nextPageToken := None |} []).
  - eapply walks_cons
      with (results := {| items := Some []; nextPageToken := Some "t2" |})
           (t := "t2");
      [reflexivity|reflexivity|discriminate|constructor].
  - reflexivity.
  - reflexivity.
  - repeat constructor.
  - reflexivity.
  - simpl. lia.
Defined.

Lemma other_errors_abort_run_witness :
  exists w',
    _get_activity_logs 1 "admin"
      (output_file_of (Demo.google false false ["admin"; "drive"])
         PNone PNone "admin")
      (overwrite (Demo.google false false ["admin"; "drive"])) PNone PNone
      Demo.failing_service = (Raised (OtherError "HttpError"), w')
    /\ get_logs_loop 1 (Demo.google false false ["admin"; "drive"])
         ["admin"; "drive"] PNone PNone 0 0 Demo.failing_service
       = (Raised (OtherError "HttpError"), w').
Proof.
  apply (other_errors_abort_run 1 (Demo.google false false ["admin"; "drive"])
           "admin" ["drive"] PNone PNone 0 0 Demo.failing_service PNone []
           [Err (OtherError "HttpError"); Demo.page [Demo.rec_a] None] None
           (OtherError "HttpError") [Demo.page [Demo.rec_a] None]).
  - reflexivity.
  - constructor.
  - reflexivity.
  - discriminate.
  - simpl. lia.
Defined.

Lemma overwrite_mode_keeps_last_page_witness :
  exists w',
    _get_activity_logs 2 "drive" "out/drive_logs.json" (PJ (JBool true))
      PNone PNone Demo.two_pages
    = (Returned (JInt (page_total ([[Demo.rec_a; Demo.rec_b]] ++ [[Demo.rec_c]])),
                 JInt (page_total ([[Demo.rec_a; Demo.rec_b]] ++ [[Demo.rec_c]]))),
       w')
    /\ files w' !! "out/drive_logs.json" = Some [line_of Demo.rec_c].
Proof.
  apply (overwrite_mode_keeps_last_page 2 "drive" "out/drive_logs.json"
           (PJ (JBool true)) PNone PNone Demo.two_pages
           [[Demo.rec_a; Demo.rec_b]] [Demo.page [Demo.rec_c] None] (Some "t2")
           {| items := Some [Demo.rec_c]; nextPageToken := None |} []).
  - eapply walks_cons
      with (results := {| items := Some [Demo.rec_a; Demo.rec_b];
                          nextPageToken := Some "t2" |}) (t := "t2");
      [reflexivity|reflexivity|discriminate|constructor].
  - reflexivity.
  - reflexivity.
  - reflexivity.
  - simpl. lia.
Defined.

(** Two applications, the first answered in two pages: the run returns and
    both calls were made, in order. *)
Lemma get_logs_calls_without_update_witness :
  fst (get_logs_loop 2 (Demo.google false false ["admin"; "drive"])
         ["admin"; "drive"] PNone PNone 0 0 Demo.two_applications)
  = Returned (3, 3)
  /\ fetch_calls (snd (get_logs_loop 2 (Demo.google false false ["admin"; "drive"])
                         ["admin"; "drive"] PNone PNone 0 0
                         Demo.two_applications))
     = [planned_call (Demo.google false false ["admin"; "drive"])
          PNone PNone "admin";
        planned_call (Demo.google false false ["admin"; "drive"])
          PNone PNone "drive"].
Proof.
  split; [reflexivity|].
  exact (get_logs_calls_without_update 2
           (Demo.google false false ["admin"; "drive"]) PNone PNone
           ["admin"; "drive"] 0 0 Demo.two_applications eq_refl).
Defined.

Lemma get_logs_totals_agree_witness : 1 = 1 /\ 0 <= 1.
Proof.
  apply (get_logs_totals_agree 1 (Demo.google true false ["admin"; "drive"])
           (PStr "2024-01-01T00:00:00Z") (PStr "2024-01-02T00:00:00Z")
           Demo.admin_on_disk 1 1
           (snd (get_logs 1 (Demo.google true false ["admin"; "drive"])
                   (PStr "2024-01-01T00:00:00Z") (PStr "2024-01-02T00:00:00Z")
                   Demo.admin_on_disk))).
  reflexivity.
Defined.

Lemma corrupt_file_aborts_update_run_witness :
  exists e',
    get_logs_loop 1 (Demo.google true false ["admin"; "drive"])
      ["admin"; "drive"] PNone PNone 0 0 Demo.broken_admin_on_disk
    = (Raised e', Demo.broken_admin_on_disk).
Proof.
  apply (corrupt_file_aborts_update_run 1
           (Demo.google true false ["admin"; "drive"]) "admin" ["drive"]
           PNone PNone 0 0 Demo.broken_admin_on_disk
           [Demo.dumps Demo.rec_a +:+ nl; "not json" +:+ nl]
           ("not json" +:+ nl) ValueError).
  - reflexivity.
  - reflexivity.
  - right. left. reflexivity.
  - reflexivity.
Defined.

(** Update mode, nothing on disk: the two records written for [admin] do
    not move the start of the fetch for [drive]. *)
Lemma first_update_run_uses_the_window_witness :
  fst (get_logs_loop 2 (Demo.google true false ["admin"; "drive"])
         ["admin"; "drive"] PNone PNone 0 0 Demo.two_applications)
  = Returned (3, 3)
  /\ fetch_calls (snd (get_logs_loop 2 (Demo.google true false ["admin"; "drive"])
                         ["admin"; "drive"] PNone PNone 0 0
                         Demo.two_applications))
     = [planned_call (Demo.google true false ["admin"; "drive"])
          PNone PNone "admin";
        planned_call (Demo.google true false ["admin"; "drive"])
          PNone PNone "drive"].
Proof.
  split; [reflexivity|].
  refine (first_update_run_uses_the_window 2
            (Demo.google true false ["admin"; "drive"]) PNone PNone
            ["admin"; "drive"] 0 0 Demo.two_applications _ _ _).
  - apply NoDup_cons. split.
    + intros Hin. apply list_elem_of_In in Hin.
      destruct Hin as [Heq|[]]. discriminate Heq.
    + apply NoDup_cons. split; [|constructor].
      intros Hin. apply list_elem_of_In in Hin. destruct Hin.
  - repeat constructor.
  - intros app _. reflexivity.
Defined.

Lemma output_files_differ_by_application_witness :
  output_file_of (Demo.google false false []) PNone PNone "admin"
  <> output_file_of (Demo.google false false []) PNone PNone "drive".
Proof.
  apply (output_files_differ_by_application (Demo.google false false [])
           PNone PNone "admin" "drive").
  discriminate.
Defined.

Lemma truthy_arguments_survive_merge_witness :
  merge_config Demo.plain_config (parse_args Demo.argv_plain) !! "creds_path"
  = Some (JStr "creds.json").
Proof.
  apply (truthy_arguments_survive_merge Demo.plain_config
           (parse_args Demo.argv_plain) "creds_path" (JStr "creds.json"));
    reflexivity.
Defined.

Lemma apps_default_is_kept_witness :
  merge_config Demo.apps_config (parse_args Demo.argv_bare) !! "apps"
  = Some (JStr (String.concat "," DEFAULT_APPLICATIONS)).
Proof.
  apply (apps_default_is_kept Demo.argv_bare Demo.apps_config (JStr "drive"));
    reflexivity.
Defined.

Lemma non_daily_run_is_open_ended_witness :
  main 1 Demo.argv_plain {[ "config.json" := Demo.from_date_config ]}
    Demo.one_record
  = bind (get_logs 1 (Demo.google false false ["drive"])
            (PJ (JStr "2024-01-01T00:00:00Z")) PNone)
      (fun _ => ret tt) Demo.one_record.
Proof.
  apply (non_daily_run_is_open_ended 1 Demo.argv_plain
           {[ "config.json" := Demo.from_date_config ]} Demo.one_record
           (JStr "2024-01-01T00:00:00Z") (JStr "drive") ["drive"]
           (Demo.google false false ["drive"]));
    reflexivity.
Defined.

Lemma daily_bound_suffices_witness :
  snd (daily_windows (daily_bound Demo.jan_1 Demo.jan_3_noon)
         Demo.jan_1 Demo.jan_3_noon) <> ExitFuel.
Proof.
  apply (daily_bound_suffices Demo.jan_1 Demo.jan_3_noon).
  - simpl. lia.
  - simpl. unfold DAY_MICROS. lia.
Defined.

Lemma daily_windows_count_witness :
  Z.of_nat (length (fst (daily_windows 4 Demo.jan_1 Demo.jan_3_noon)))
  = (if utc Demo.jan_1 <? utc Demo.jan_3_noon
     then calendar_days Demo.jan_1 Demo.jan_3_noon else 0).
Proof.
  apply (daily_windows_count 4 Demo.jan_1 Demo.jan_3_noon).
  - reflexivity.
  - reflexivity.
  - unfold valid_datetime. simpl. unfold MAXORDINAL, DAY_MICROS. lia.
  - unfold valid_datetime. simpl. unfold MAXORDINAL, DAY_MICROS. lia.
  - unfold daily_bound. simpl. lia.
Defined.

Lemma daily_windows_tile_the_range_witness :
  exists head rest init final,
    fst (daily_windows 4 Demo.jan_1 Demo.jan_3_noon) = head :: rest
    /\ head :: rest = init ++ [final]
    /\ fst head = Demo.jan_1
    /\ chained (head :: rest)
    /\ Forall (fun win =>
                 utc Demo.jan_1 <= utc (fst win)
                 /\ utc (fst win) <= utc (snd win)
                 /\ utc (snd win) <= utc Demo.jan_3_noon) (head :: rest)
    /\ snd final = (if day_micros Demo.jan_3_noon =? 0
                    then day_end Demo.jan_3_noon (-1) else Demo.jan_3_noon).
Proof.
  apply (daily_windows_tile_the_range 4 Demo.jan_1 Demo.jan_3_noon).
  - reflexivity.
  - reflexivity.
  - unfold valid_datetime. simpl. unfold MAXORDINAL, DAY_MICROS. lia.
  - unfold valid_datetime. simpl. unfold MAXORDINAL, DAY_MICROS. lia.
  - reflexivity.
  - unfold daily_bound. simpl. lia.
Defined.

Lemma daily_run_end_witness :
  snd (daily_windows 4 Demo.jan_1 Demo.jan_3_noon)
  = (if (toordinal Demo.jan_3_noon =? MAXORDINAL)
        && negb (day_micros Demo.jan_3_noon =? 0)
     then ExitRaised OverflowError else ExitDone).
Proof.
  apply (daily_run_end 4 Demo.jan_1 Demo.jan_3_noon).
  - reflexivity.
  - reflexivity.
  - unfold valid_datetime. simpl. unfold MAXORDINAL, DAY_MICROS. lia.
  - unfold valid_datetime. simpl. unfold MAXORDINAL, DAY_MICROS. lia.
  - reflexivity.
  - unfold daily_bound. simpl. lia.
Defined.

Lemma convert_apps_normalizes_witness :
  Forall normal_name ["drive"; "admin"].
Proof.
  apply (convert_apps_normalizes " Drive , ADMIN" ["drive"; "admin"]).
  - reflexivity.
  - discriminate.
Defined.

Lemma convert_apps_of_joined_names_witness :
  convert_apps (JStr (String.concat "," DEFAULT_APPLICATIONS))
  = Ok DEFAULT_APPLICATIONS.
Proof.
  apply (convert_apps_of_joined_names DEFAULT_APPLICATIONS).
  - discriminate.
  - repeat constructor.
  - unfold DEFAULT_APPLICATIONS.
    repeat (constructor;
            [intros Hin; cbn in Hin;
             repeat (destruct Hin as [Hin|Hin]; [discriminate Hin|]);
             exact Hin|]).
    constructor.
  - discriminate.
  - discriminate.
Defined.

Lemma daily_run_calls_get_logs_per_window_witness :
  main 1 Demo.argv_plain {[ "config.json" := Demo.daily_config ]}
    Demo.one_record
  = call_windows 1 (Demo.google false false ["drive"])
      (fst (daily_windows
              (daily_bound Demo.jan_1
                 {| toordinal := 738886; day_micros := 43200000000;
                    utcoffset := None |})
              Demo.jan_1
              {| toordinal := 738886; day_micros := 43200000000;
                 utcoffset := None |}))
      (snd (daily_windows
              (daily_bound Demo.jan_1
                 {| toordinal := 738886; day_micros := 43200000000;
                    utcoffset := None |})
              Demo.jan_1
              {| toordinal := 738886; day_micros := 43200000000;
                 utcoffset := None |}))
      Demo.one_record.
Proof.
  apply (daily_run_calls_get_logs_per_window 1 Demo.argv_plain
           {[ "config.json" := Demo.daily_config ]} Demo.one_record
           (JStr "drive") ["drive"] (Demo.google false false ["drive"])
           (JBool true)
           (JStr "2024-01-01T00:00:00Z") (JStr "2024-01-01T12:00:00Z")
           Demo.jan_1
           {| toordinal := 738886; day_micros := 43200000000;
              utcoffset := None |});
    reflexivity.
Defined.
